(** * Sliding-window table: window calculator, range store and fetch cycle

    A shallow embedding of the sliding-window data viewer:

    - [visibleRange], the debounce effect, the [app-data] query and
      [dataMap] of the [SlidingWindowTable] component
      (components/data-table/sliding-window-table.tsx);
    - [getAppDataRange] of the data service layer (lib/data/api.ts);
    - the [GET] handler of app/api/apps/[app-id]/data/route.ts.

    JavaScript numbers that hold row indices, counts and sizes are
    integers here ([Z]); clock readings and durations are milliseconds
    ([N]).  Strings are sequences of UTF-16 code units. *)

From Stdlib Require Import ZArith NArith String Ascii Lia DecimalPos.
From stdpp Require Import base option list gmap fin_maps numbers.

Local Open Scope Z_scope.

(** ** Data model *)

(** [interface DataRecord] (same shape on the client and in the service
    layer). *)
Module DataRecord.
Record t := mk {
  id : Z;
  firstName : string;
  lastName : string;
  email : string;
  jobTitle : string;
  company : string;
  status : string;
  createdAt : string
}.
End DataRecord.

(** The [{ start, size }] objects produced by [visibleRange] and held in
    [debouncedRange]. *)
Module Range.
Record t := mk { start : Z; size : Z }.
End Range.

(** The entries of [virtualizer.getVirtualItems()] as far as the component
    reads them: [key], [index], [start] (pixel offset) and [size] (pixel
    height). *)
Module VirtualItem.
Record t := mk { key : Z; index : Z; start : Z; size : Z }.
End VirtualItem.

(** Configuration constants of the component. *)
Definition BUFFER_SIZE : Z := 20.
Definition OVERSCAN : Z := 5.
Definition DEBOUNCE_MS : N := 300%N.
Definition ROW_HEIGHT : Z := 50.

(** ** Step 3: the window calculator *)

(** The body of the [useMemo] that computes [visibleRange] from the
    virtual items and [totalCount]. *)
Definition visibleRange (virtualItems : list VirtualItem.t) (totalCount : Z)
  : Range.t :=
  match virtualItems with
  | [] => Range.mk 0 50
  | first :: rest =>
      let firstVisibleIndex := VirtualItem.index first in
      let lastVisibleIndex := VirtualItem.index (List.last rest first) in
      let start := Z.max 0 (firstVisibleIndex - BUFFER_SIZE) in
      let end_ := Z.min (totalCount - 1) (lastVisibleIndex + BUFFER_SIZE) in
      let size := end_ - start + 1 in
      Range.mk start size
  end.

(** Virtual items for the contiguous rows [first .. first + count - 1], laid
    out at the fixed row height. *)
Definition rows (first count : Z) : list VirtualItem.t :=
  (fun i => VirtualItem.mk i i (i * ROW_HEIGHT) ROW_HEIGHT) <$> seqZ first count.

(** Number of indices in the visible index range of a list of virtual
    items. *)
Definition visibleCount (virtualItems : list VirtualItem.t) : Z :=
  match virtualItems with
  | [] => 0
  | first :: rest =>
      VirtualItem.index (List.last rest first) - VirtualItem.index first + 1
  end.

(** ** JavaScript strings and numbers at the HTTP boundary *)

(** A string is a sequence of UTF-16 code units. *)
Abbreviation code_unit := N (only parsing).
Abbreviation jsstring := (list N) (only parsing).

Definition str (s : string) : jsstring :=
  N_of_ascii <$> list_ascii_of_string s.

(** A number that is an integer or [NaN] ([None]).  Values beyond the
    exactly representable range are kept exact: rounding to a double is
    monotone, so the comparisons against 0 and 1000 below do not depend on
    it, and [slice] clamps every index of that size to the array length. *)
Abbreviation Number := (option Z) (only parsing).

Definition isNaN (x : Number) : bool :=
  match x with None => true | Some _ => false end.

(** [x < c], [x <= c], [x > c] on numbers: false when [x] is [NaN]. *)
Definition num_lt (x : Number) (c : Z) : bool :=
  match x with Some n => n <? c | None => false end.
Definition num_le (x : Number) (c : Z) : bool :=
  match x with Some n => n <=? c | None => false end.
Definition num_gt (x : Number) (c : Z) : bool :=
  match x with Some n => c <? n | None => false end.

(** StrWhiteSpaceChar: WhiteSpace and LineTerminator code points. *)
Definition isStrWhiteSpaceChar (c : N) : bool :=
  ((c =? 9) || (c =? 10) || (c =? 11) || (c =? 12) || (c =? 13) || (c =? 32)
   || (c =? 160) || (c =? 5760) || ((8192 <=? c) && (c <=? 8202))
   || (c =? 8232) || (c =? 8233) || (c =? 8239) || (c =? 8287)
   || (c =? 12288) || (c =? 65279))%N.

Fixpoint trimStart (s : jsstring) : jsstring :=
  match s with
  | c :: s' => if isStrWhiteSpaceChar c then trimStart s' else s
  | [] => []
  end.

Definition isDigit (c : N) : bool := ((48 <=? c) && (c <=? 57))%N.

(** The longest prefix of decimal digits, read left to right into [acc];
    [seen] records whether at least one digit was read. *)
Fixpoint parseDigits (s : jsstring) (acc : N) (seen : bool) : option N :=
  match s with
  | c :: s' =>
      if isDigit c then parseDigits s' (acc * 10 + (c - 48))%N true
      else if seen then Some acc else None
  | [] => if seen then Some acc else None
  end.

(** [parseInt(string, 10)]: skip leading white space, read an optional sign,
    then the longest prefix of decimal digits; [NaN] when there is none. *)
Definition parseInt (s : jsstring) : Number :=
  match trimStart s with
  | 45%N :: s' => (fun m => - Z.of_N m) <$> parseDigits s' 0%N false
  | 43%N :: s' => Z.of_N <$> parseDigits s' 0%N false
  | s' => Z.of_N <$> parseDigits s' 0%N false
  end.

(** The code units of a decimal numeral. *)
Fixpoint uint_units (d : Decimal.uint) : jsstring :=
  match d with
  | Decimal.Nil => []
  | Decimal.D0 d => 48%N :: uint_units d
  | Decimal.D1 d => 49%N :: uint_units d
  | Decimal.D2 d => 50%N :: uint_units d
  | Decimal.D3 d => 51%N :: uint_units d
  | Decimal.D4 d => 52%N :: uint_units d
  | Decimal.D5 d => 53%N :: uint_units d
  | Decimal.D6 d => 54%N :: uint_units d
  | Decimal.D7 d => 55%N :: uint_units d
  | Decimal.D8 d => 56%N :: uint_units d
  | Decimal.D9 d => 57%N :: uint_units d
  end.

(** Number-to-string conversion of an integer, as a template literal
    performs it on [debouncedRange.start] and [debouncedRange.size]:
    decimal digits, with a leading minus sign for a negative value (the
    form JavaScript uses for integers below 10^21 in magnitude; from there
    on a literal is in exponent form, which is not modelled: the numbers
    the component prints are row indices and window sizes). *)
Definition Number_toString (n : Z) : jsstring :=
  match Z.to_int n with
  | Decimal.Pos d => uint_units d
  | Decimal.Neg d => 45%N :: uint_units d
  end.

(** [Array.prototype.slice(start, end)] with integer arguments: a negative
    argument counts from the end, every index is clamped to the length. *)
Definition slice {A} (l : list A) (start end_ : Z) : list A :=
  let len := Z.of_nat (length l) in
  let k := if start <? 0 then Z.max (len + start) 0 else Z.min start len in
  let final := if end_ <? 0 then Z.max (len + end_) 0 else Z.min end_ len in
  take (Z.to_nat (final - k)) (drop (Z.to_nat k) l).

(** ** The range store: [getAppDataRange] *)

(** What the service layer finds at [data/<appId>_data.json], by what
    [getAppDataRange] does with it.  The interface declares the content as
    [DataRecord[]] and the model follows it: a file whose JSON text is a
    string (which has a [length] and a [slice] of its own) or an array of
    anything but records has no constructor here. *)
Inductive DataFile :=
  | Absent
      (* [fs.existsSync] is false *)
  | Unreadable
      (* the query throws on the file: [fs.readFileSync] or [JSON.parse]
         throws, or the parsed value is [null], a number, a boolean or an
         object, on which [allData.length] or [allData.slice] throws *)
  | Records (allData : list DataRecord.t)
      (* the file parses to this array of records *).

Abbreviation DataDir := (string → DataFile) (only parsing).

(** [interface RangeQueryResult<T>]. *)
Module RangeQueryResult.
Record t := mk { data : list DataRecord.t; totalCount : Z }.
End RangeQueryResult.

(** [getAppDataRange]; [None] stands for a thrown exception (a rejected
    promise). *)
Definition getAppDataRange (dir : DataDir) (appId : string) (start size : Z)
  : option RangeQueryResult.t :=
  match dir appId with
  | Absent => Some (RangeQueryResult.mk [] 0)
  | Unreadable => None
  | Records allData =>
      let totalCount := Z.of_nat (length allData) in
      let data := slice allData start (start + size) in
      Some (RangeQueryResult.mk data totalCount)
  end.

(** ** The route handler: [GET /api/apps/[app-id]/data] *)

(** The JSON bodies the handler sends, which are also what [res.json()]
    yields on the client. *)
Inductive Body :=
  | DataBody (data : list DataRecord.t) (totalCount : Z)
  | ErrorBody (error : string).

Module Response.
Record t := mk { status : Z; body : Body }.
End Response.

(** The request as the handler reads it: the [app-id] path parameter and
    [searchParams.get('start')], [searchParams.get('size')] ([None] is
    [null]). *)
Module Request.
Record t := mk {
  appId : string;
  startParam : option (list N);
  sizeParam : option (list N)
}.
End Request.

(** [param ? parseInt(param, 10) : dflt] for a [string | null]: the
    parameter is truthy when it is neither [null] nor empty. *)
Definition paramOr (p : option (list N)) (dflt : Z) : option Z :=
  match p with
  | Some (c :: s) => parseInt (c :: s)
  | _ => Some dflt
  end.

Definition GET (dir : DataDir) (request : Request.t) : Response.t :=
  let appId := Request.appId request in
  let startParam := Request.startParam request in
  let sizeParam := Request.sizeParam request in
  let start := paramOr startParam 0 in
  let size := paramOr sizeParam 50 in
  if isNaN start || num_lt start 0 then
    Response.mk 400 (ErrorBody "Invalid start parameter")
  else if isNaN size || num_le size 0 || num_gt size 1000 then
    Response.mk 400
      (ErrorBody "Invalid size parameter (must be between 1 and 1000)")
  else
    match getAppDataRange dir appId (default 0 start) (default 0 size) with
    | Some result =>
        Response.mk 200
          (DataBody (RangeQueryResult.data result)
                    (RangeQueryResult.totalCount result))
    | None => Response.mk 500 (ErrorBody "Internal server error")
    end.

(** ** The client: the fetch cycle of [SlidingWindowTable]

    The component is a function of its hooks' state; the state below holds
    what the hooks hold, and [step] is one reaction of the single-threaded
    event loop (scroll, timer expiry, fetch completion).  The behaviour of
    [useQuery] is that of @tanstack/react-query v5 for the options the
    component passes ([enabled], [staleTime], [placeholderData]) and the
    defaults of [Providers].

    The events are the component's own.  What the library does on its own
    account is not an event: it repeats a failed attempt before it gives
    up ([Reject] is the failure that remains after that, and [requests]
    lists a fetch once, however often it was attempted), and it refetches
    a stale query when the browser comes back online.  It also drops a
    query that has been idle and without an observer for its [gcTime] of
    five minutes; the cache below keeps every entry, so what is proved
    from a cached entry holds for as long as the library keeps it, which
    is at least five minutes from the arrival of its data. *)

(** Cache lifetime of a result: [staleTime: 30000]. *)
Definition staleTime : N := 30000%N.

(** The key [['app-data', appId, start, size]] of the data query; [appId] is
    a fixed prop of the mounted component. *)
Definition queryKey (r : Range.t) : Z * Z := (Range.start r, Range.size r).

Inductive QueryStatus := Pending | Success | Failed.

(** One entry of the query cache: [state.data], [state.dataUpdatedAt],
    [state.status] and the fetch in flight, if [fetchStatus] is
    ['fetching'].  The fetch is named by its position in the log of
    requests; the number is bookkeeping of the model only, the code
    matches a response to its query by the key. *)
Module Query.
Record t := mk {
  data : option Body;
  dataUpdatedAt : N;
  status : QueryStatus;
  fetching : option nat
}.
Definition initial : t := mk None 0%N Pending None.
End Query.

Definition isFetching (q : Query.t) : bool :=
  match Query.fetching q with Some _ => true | None => false end.

Module State.
Record t := mk {
  now : N;
      (* the clock *)
  metaData : option Z;
      (* [totalCount] of the resolved app-meta query, if any *)
  virtualItems : list VirtualItem.t;
      (* [virtualizer.getVirtualItems()] *)
  debouncedRange : Range.t;
      (* the [useState] cell *)
  timer : option (N * Range.t);
      (* the pending [setTimeout]: due time and the [visibleRange] its
         callback closes over *)
  queries : gmap (Z * Z) Query.t;
      (* the query cache, by [(start, size)] *)
  lastDefined : option (Z * Z);
      (* the observer's last query that had defined data *)
  requests : list (Z * Z)
      (* every fetch started so far, oldest first; the library's retries of
         a failed attempt repeat the same request and are not listed *)
}.
End State.

(** [metaData?.totalCount || 0]. *)
Definition totalCount (st : State.t) : Z := default 0 (State.metaData st).

(** [enabled: totalCount > 0]. *)
Definition enabled (st : State.t) : bool := 0 <? totalCount st.

Definition currentKey (st : State.t) : Z * Z :=
  queryKey (State.debouncedRange st).

(** A key that was never observed has a fresh query: pending, no data. *)
Definition getQuery (queries : gmap (Z * Z) Query.t) (k : Z * Z) : Query.t :=
  default Query.initial (queries !! k).

(** [query.isStaleByTime(staleTime)]. *)
Definition isStale (q : Query.t) (now : N) : bool :=
  match Query.data q with
  | None => true
  | Some _ => (Query.dataUpdatedAt q + staleTime <=? now)%N
  end.

(** The observer has just attached to the current query (its key changed,
    or [enabled] went from false to true): [queryFn] is called when the
    query is enabled, stale and not already being fetched (a fetch in
    flight for the same key is shared, not repeated).  A query fetched
    without data is pending again. *)
Definition fetchOptionally (st : State.t) : State.t :=
  let k := currentKey st in
  let q := getQuery (State.queries st) k in
  if enabled st && negb (isFetching q) && isStale q (State.now st) then
    let q' :=
      Query.mk (Query.data q) (Query.dataUpdatedAt q)
        (match Query.data q with None => Pending | Some _ => Query.status q end)
        (Some (length (State.requests st))) in
    State.mk (State.now st) (State.metaData st) (State.virtualItems st)
      (State.debouncedRange st) (State.timer st)
      (<[k := q']> (State.queries st)) (State.lastDefined st)
      (State.requests st ++ [k])
  else st.

(** The observer remembers the current query whenever it has data. *)
Definition trackDefined (st : State.t) : State.t :=
  match Query.data (getQuery (State.queries st) (currentKey st)) with
  | Some _ =>
      State.mk (State.now st) (State.metaData st) (State.virtualItems st)
        (State.debouncedRange st) (State.timer st) (State.queries st)
        (Some (currentKey st)) (State.requests st)
  | None => st
  end.

Inductive Event :=
  | Elapse (d : N)
      (* [d] milliseconds pass; a timer that is due fires *)
  | MetaLoaded (n : Z)
      (* the app-meta query resolves with [totalCount = n] *)
  | Scroll (items : list VirtualItem.t)
      (* scroll or resize: the virtualizer yields new items *)
  | Resolve (k : Z * Z) (body : Body)
      (* [res.json()] of the request for [k] resolves with [body] *)
  | Reject (k : Z * Z)
      (* the request for [k] fails for good: [fetch] or [res.json()]
         rejected and the client's retries are used up *).

(** Step 3.5, the debounce effect.  A new [visibleRange] object re-runs the
    effect: its cleanup clears the pending timer and a new one is set. *)
Definition restartTimer (st : State.t) (visible : Range.t) : option (N * Range.t) :=
  Some ((State.now st + DEBOUNCE_MS)%N, visible).

(** One reaction of the component.
    - [Elapse]: when the pending timer is due its callback sets
      [debouncedRange]; the query key is built from its [start] and [size],
      so the observer moves to another query only when one of them changed.
    - [MetaLoaded]: [totalCount] is read from the new metadata; a changed
      [totalCount] recomputes [visibleRange] (a dependency of its
      [useMemo]), and [enabled] may turn true.
    - [Scroll]: new virtual items recompute [visibleRange].
    - [Resolve], [Reject]: the fetch in flight for the key settles; a
      settlement for a key with no fetch in flight does not occur. *)
Definition react (st : State.t) (ev : Event) : State.t :=
  match ev with
  | Elapse d =>
      let now' := (State.now st + d)%N in
      match State.timer st with
      | Some (due, r) =>
          if (due <=? now')%N then
            (* the callback runs: [setDebouncedRange(visibleRange)] *)
            let st1 :=
              State.mk now' (State.metaData st) (State.virtualItems st) r None
                (State.queries st) (State.lastDefined st) (State.requests st) in
            if decide (queryKey r = currentKey st) then st1
            else fetchOptionally st1
          else
            State.mk now' (State.metaData st) (State.virtualItems st)
              (State.debouncedRange st) (State.timer st) (State.queries st)
              (State.lastDefined st) (State.requests st)
      | None =>
          State.mk now' (State.metaData st) (State.virtualItems st)
            (State.debouncedRange st) (State.timer st) (State.queries st)
            (State.lastDefined st) (State.requests st)
      end
  | MetaLoaded n =>
      let timer' :=
        if decide (n = totalCount st) then State.timer st
        else restartTimer st (visibleRange (State.virtualItems st) n) in
      let st1 :=
        State.mk (State.now st) (Some n) (State.virtualItems st)
          (State.debouncedRange st) timer' (State.queries st)
          (State.lastDefined st) (State.requests st) in
      if negb (enabled st) && enabled st1 then fetchOptionally st1 else st1
  | Scroll items =>
      State.mk (State.now st) (State.metaData st) items
        (State.debouncedRange st)
        (restartTimer st (visibleRange items (totalCount st)))
        (State.queries st) (State.lastDefined st) (State.requests st)
  | Resolve k body =>
      if isFetching (getQuery (State.queries st) k) then
        State.mk (State.now st) (State.metaData st) (State.virtualItems st)
          (State.debouncedRange st) (State.timer st)
          (<[k := Query.mk (Some body) (State.now st) Success None]>
             (State.queries st))
          (State.lastDefined st) (State.requests st)
      else st
  | Reject k =>
      let q := getQuery (State.queries st) k in
      if isFetching q then
        State.mk (State.now st) (State.metaData st) (State.virtualItems st)
          (State.debouncedRange st) (State.timer st)
          (<[k := Query.mk (Query.data q) (Query.dataUpdatedAt q) Failed None]>
             (State.queries st))
          (State.lastDefined st) (State.requests st)
      else st
  end.

Definition step (st : State.t) (ev : Event) : State.t :=
  trackDefined (react st ev).

(** The state after a sequence of events, oldest first. *)
Definition run (st : State.t) (evs : list Event) : State.t :=
  foldl step st evs.

(** The component right after mounting: no metadata yet, so no virtual
    items and [visibleRange = {start: 0, size: 50}]; [debouncedRange] starts
    from it and the first run of the debounce effect has set its timer. *)
Definition mounted : State.t :=
  State.mk 0%N None [] (visibleRange [] 0)
    (Some (DEBOUNCE_MS, visibleRange [] 0)) ∅ None [].

(** Step 4: [data] of the [useQuery] result.  The data of the current
    query; while that query is pending without data,
    [placeholderData: (previousData) => previousData] substitutes the data
    of the last query that had some. *)
Definition queryData (st : State.t) : option Body :=
  let q := getQuery (State.queries st) (currentKey st) in
  match Query.data q with
  | Some body => Some body
  | None =>
      match Query.status q with
      | Pending =>
          k ← State.lastDefined st;
          Query.data (getQuery (State.queries st) k)
      | _ => None
      end
  end.

(** The [forEach] loop of Step 5: [map.set(start + idx, record)] for each
    record, with [idx] counting up from its first value. *)
Fixpoint forEach_set (start : Z) (idx : nat) (data : list DataRecord.t)
    (map : gmap Z DataRecord.t) : gmap Z DataRecord.t :=
  match data with
  | [] => map
  | record :: rest =>
      forEach_set start (S idx) rest (<[start + Z.of_nat idx := record]> map)
  end.

Definition mapRecords (start : Z) (data : list DataRecord.t)
  : gmap Z DataRecord.t :=
  forEach_set start 0 data ∅.

(** Step 5: [dataMap]. *)
Definition dataMap (st : State.t) : gmap Z DataRecord.t :=
  match queryData st with
  | Some (DataBody data _) =>
      mapRecords (Range.start (State.debouncedRange st)) data
  | _ => ∅
  end.

(** What a virtual row shows: the record under its index, or the skeleton
    loader when [dataMap] has none. *)
Inductive Row := Skeleton | DataRow (record : DataRecord.t).

Definition renderRow (st : State.t) (index : Z) : Row :=
  match dataMap st !! index with
  | Some record => DataRow record
  | None => Skeleton
  end.

(** The request the client sends for a key:
    [/api/apps/${appId}/data?start=${start}&size=${size}]. *)
Definition requestFor (appId : string) (k : Z * Z) : Request.t :=
  Request.mk appId (Some (Number_toString k.1)) (Some (Number_toString k.2)).

(** The body the client reads when the route handler answers the request
    for [k] against the data directory [dir]. *)
Definition fetched (dir : string → DataFile) (appId : string) (k : Z * Z)
  : Body :=
  Response.body (GET dir (requestFor appId k)).

(** What a request decision reads from the state. *)
Definition sameFetchState (st st' : State.t) : Prop :=
  State.metaData st' = State.metaData st ∧
  State.debouncedRange st' = State.debouncedRange st ∧
  State.queries st' = State.queries st ∧
  State.requests st' = State.requests st.

(** The settlement (success or failure) of a request for a range other
    than [b]. *)
Definition settlesOther (b : Z * Z) (ev : Event) : Prop :=
  match ev with
  | Resolve k _ | Reject k => k ≠ b
  | _ => False
  end.

(** A fetch in flight is the latest request made for its key. *)
Definition inflightLatest (st : State.t) : Prop :=
  ∀ k q i,
    State.queries st !! k = Some q →
    Query.fetching q = Some i →
    State.requests st !! i = Some k ∧
    ∀ j, (i < j)%nat → State.requests st !! j ≠ Some k.

(** The reading of staleness under which a late response is never
    applied: whatever the mounted component has been through, once the
    response of a fetch B has arrived for the range then current and been
    applied, the response of a fetch A issued before B and still awaited
    leaves [dataMap] as it is, whenever it arrives. *)
Definition late_response_never_applied : Prop :=
  ∀ (before after : list Event) (i j : nat) (a b : Z * Z)
    (bodyA bodyB : Body),
    let stB := run mounted before in
    let st := run stB (Resolve b bodyB :: after) in
    State.requests stB !! i = Some a →
    State.requests stB !! j = Some b →
    (i < j)%nat →
    Query.fetching (getQuery (State.queries stB) b) = Some j →
    currentKey stB = b →
    Query.fetching (getQuery (State.queries st) a) = Some i →
    dataMap (step st (Resolve a bodyA)) = dataMap st.

(** A failed fetch, as the client sees it: the request is rejected, or the
    store answers with an error body (status 400 or 500) in place of
    [{ data, totalCount }]. *)
Definition isFailure (ev : Event) : Prop :=
  match ev with
  | Reject _ => True
  | Resolve _ (ErrorBody _) => True
  | _ => False
  end.

(** The reading of failure handling under which no failed fetch touches
    the rows: whatever the mounted component has been through, a failure
    leaves [dataMap] as it was. *)
Definition failure_keeps_rows : Prop :=
  ∀ (history : list Event) (ev : Event),
    isFailure ev →
    dataMap (step (run mounted history) ev) = dataMap (run mounted history).

(** Every response in the event was produced by the route handler, for the
    request the client sent, against some state of the data directory. *)
Definition served (appId : string) (ev : Event) : Prop :=
  match ev with
  | Resolve k body => ∃ dir, body = fetched dir appId k
  | _ => True
  end.

(** The lists of virtual items the component has had in the course of a
    history: none at mount, then what each scroll or resize yielded. *)
Definition shown (history : list Event) : list (list VirtualItem.t) :=
  [] :: omap (fun ev =>
                match ev with Scroll items => Some items | _ => None end)
          history.

(** The values [totalCount] has had: 0 at mount, then what the metadata
    reported. *)
Definition counts (history : list Event) : list Z :=
  0 :: omap (fun ev =>
               match ev with MetaLoaded n => Some n | _ => None end)
         history.

(** A range the window calculator has returned in the course of a
    history: the window of virtual items the component has had, at a
    [totalCount] it has had. *)
Definition windowed (history : list Event) (r : Range.t) : Prop :=
  ∃ items total,
    items ∈ shown history ∧ total ∈ counts history ∧
    r = visibleRange items total.

(** Where the contents of the query cache come from, after a history: the
    ranges held by the component are windows of that history, every cached
    key was requested, every requested key is the key of such a window,
    and every cached body is the store's answer to the request for its
    key. *)
Definition cacheProvenance (appId : string) (history : list Event)
    (st : State.t) : Prop :=
  State.virtualItems st ∈ shown history ∧
  totalCount st ∈ counts history ∧
  windowed history (State.debouncedRange st) ∧
  (∀ due r, State.timer st = Some (due, r) → windowed history r) ∧
  (∀ k q, State.queries st !! k = Some q → k ∈ State.requests st) ∧
  (∀ k, k ∈ State.requests st → ∃ r, windowed history r ∧ k = queryKey r) ∧
  (∀ k q body,
     State.queries st !! k = Some q → Query.data q = Some body →
     ∃ dir, body = fetched dir appId k).

(** The reading of the cache bound that knows no default window: whatever
    the mounted component has been through (the responses being the
    store's), [dataMap] has at most [2 * BUFFER_SIZE + visibleCount]
    entries, for the visible rows of one of the lists of virtual items
    the component has had. *)
Definition bounded_by_visible_rows : Prop :=
  ∀ (appId : string) (history : list Event),
    Forall (served appId) history →
    ∃ items,
      items ∈ shown history ∧
      Z.of_nat (size (dataMap (run mounted history)))
        ≤ 2 * BUFFER_SIZE + visibleCount items.

(** ** Scenarios *)

(** A burst of scrolls: each entry is a new list of virtual items followed
    by the time that passes before the next event. *)
Definition burst (scrolls : list (list VirtualItem.t * N)) : list Event :=
  scrolls ≫= (fun '(items, gap) => [Scroll items; Elapse gap]).

(** Every gap of the burst is shorter than the debounce delay. *)
Definition rapid (scrolls : list (list VirtualItem.t * N)) : Prop :=
  Forall (fun '(_, gap) => (gap < DEBOUNCE_MS)%N) scrolls.

(** The reading of debounce coalescing under which every burst ends in
    exactly one request: from any state the mounted component can reach
    with [totalCount > 0], a rapid burst followed by a quiet interval adds
    exactly one request to the log, for the last range of the burst. *)
Definition every_burst_fetches_once : Prop :=
  ∀ (history : list Event) (scrolls : list (list VirtualItem.t * N))
    (items : list VirtualItem.t) (d : N),
    let st := run mounted history in
    0 < totalCount st →
    rapid scrolls →
    (DEBOUNCE_MS ≤ d)%N →
    State.requests (run st (burst scrolls ++ [Scroll items; Elapse d]))
      = State.requests st ++ [queryKey (visibleRange items (totalCount st))].

(** ** Sample data used in examples *)

Definition sampleRecord (i : Z) : DataRecord.t :=
  DataRecord.mk i "Ada" "Lovelace" "ada@example.org" "Engineer" "Acme"
    "Active" "2024-01-01T00:00:00.000Z".

Definition sampleData (n : Z) : list DataRecord.t :=
  sampleRecord <$> seqZ 1 n.

Definition sampleDir (n : Z) : string → DataFile :=
  fun appId => if String.eqb appId "app_1" then Records (sampleData n) else Absent.

(** The mounted component once the metadata ([totalCount = n]) and the
    first page have arrived from the sample store. *)
Definition loaded (n : Z) : list Event :=
  [MetaLoaded n; Resolve (0, 50) (fetched (sampleDir n) "app_1" (0, 50))].

(** Two windows requested one after the other, the second answered first:
    after the first page the user scrolls to rows 2000..2012, then on to
    rows 1000..1012 before the answer for the first scroll is back. *)
Definition overtaken : list Event :=
  loaded 3000 ++
  [Scroll (rows 2000 13); Elapse 300%N;
   Scroll (rows 1000 13); Elapse 300%N;
   Resolve (980, 53) (fetched (sampleDir 3000) "app_1" (980, 53))].

(** ... and then the user scrolls back to rows 2000..2012 while the
    answer for that window is still awaited. *)
Definition overtakenAndBack : list Event :=
  overtaken ++ [Scroll (rows 2000 13); Elapse 300%N].

(** The user scrolls from the first page to rows 2000..2012 and the
    debounce settles; the request for the new window is on its way. *)
Definition scrolledAway : list Event :=
  loaded 3000 ++ [Scroll (rows 2000 13); Elapse 300%N].

(** ... and the answer for the new window arrives from the sample store. *)
Definition scrolledAndLoaded : list Event :=
  scrolledAway ++
  [Resolve (1980, 53) (fetched (sampleDir 3000) "app_1" (1980, 53))].

(** ** The tenant and app registries of the service layer *)

(** [interface Tenant]. *)
Module Tenant.
Record t := mk {
  id : string;
  name : string;
  subdomain : string;
  createdAt : string;
  totalApps : Z
}.
End Tenant.

(** [interface App]. *)
Module App.
Record t := mk {
  id : string;
  tenantId : string;
  name : string;
  description : string;
  icon : string;
  recordCount : Z;
  createdAt : string
}.
End App.

(** What the service layer finds in [data/tenants.json] and
    [data/apps.json]: the parsed array, or [None] when [fs.readFileSync] or
    [JSON.parse] throws. *)
Module Registry.
Record t := mk {
  tenants : option (list Tenant.t);
  apps : option (list App.t)
}.
End Registry.

(** [getTenants]; here and below the outer [None] is a thrown exception. *)
Definition getTenants (files : Registry.t) : option (list Tenant.t) :=
  Registry.tenants files.

(** [getTenant]: [tenants.find(t => t.id === tenantId) || null]. *)
Definition getTenant (files : Registry.t) (tenantId : string)
  : option (option Tenant.t) :=
  tenants ← getTenants files;
  Some (List.find (fun t => String.eqb (Tenant.id t) tenantId) tenants).

(** [getAppsByTenant]: [apps.filter(app => app.tenantId === tenantId)]. *)
Definition getAppsByTenant (files : Registry.t) (tenantId : string)
  : option (list App.t) :=
  apps ← Registry.apps files;
  Some (List.filter (fun app => String.eqb (App.tenantId app) tenantId) apps).

(** [getApp]: [apps.find(app => app.id === appId) || null]. *)
Definition getApp (files : Registry.t) (appId : string)
  : option (option App.t) :=
  apps ← Registry.apps files;
  Some (List.find (fun app => String.eqb (App.id app) appId) apps).

(** ** The pages *)

(** What a server page comes to: [notFound()] was called, or the page was
    rendered from the given content. *)
Inductive Page (A : Type) :=
  | NotFound
  | Rendered (content : A).
Arguments NotFound {A}.
Arguments Rendered {A} content.


(** [TenantPage]: the tenant of the header and the apps of the grid, each
    linking to [/apps/${app.id}]. *)
Definition TenantPage (files : Registry.t) (tenantId : string)
  : option (Page (Tenant.t * list App.t)) :=
  tenant ← getTenant files tenantId;
  match tenant with
  | None => Some NotFound
  | Some tenant =>
      apps ← getAppsByTenant files tenantId;
      Some (Rendered (tenant, apps))
  end.

(** [AppPage]: the app of the header; the table is mounted for [appId]. *)
Definition AppPage (files : Registry.t) (appId : string)
  : option (Page App.t) :=
  app ← getApp files appId;
  match app with
  | None => Some NotFound
  | Some app => Some (Rendered app)
  end.

(** ** More of the table component *)

(** [Number.MAX_SAFE_INTEGER]: up to it every integer is a number of its
    own, and a template literal prints it as its decimal digits. *)
Definition MAX_SAFE_INTEGER : Z := 2 ^ 53 - 1.

Definition safeInteger (n : Z) : Prop :=
  - MAX_SAFE_INTEGER ≤ n ≤ MAX_SAFE_INTEGER.

(** [gcTime], left at the library's default of five minutes: a query that
    is idle and has no observer is dropped from the cache when its timer
    of this length runs out; the timer is restarted when data arrives and
    when the last observer leaves. *)
Definition gcTime : N := 300000%N.

(** Step 1, the metadata probe: the request
    [/api/apps/${appId}/data?start=0&size=1]. *)
Definition probeRequest (appId : string) : Request.t :=
  Request.mk appId (Some (str "0")) (Some (str "1")).

(** [metaData?.totalCount || 0] once the probe has resolved with [body]:
    an error body has no [totalCount]. *)
Definition probedTotalCount (body : Body) : Z :=
  match body with
  | DataBody _ totalCount => totalCount
  | ErrorBody _ => 0
  end.

(** The events of mounting against a store: the probe resolves with what
    the route answers. *)
Definition probe (dir : string → DataFile) (appId : string) : Event :=
  MetaLoaded (probedTotalCount (Response.body (GET dir (probeRequest appId)))).

(** The stats bar, "Viewing: a - b":
    [visibleRange.start + 1] and
    [Math.min(visibleRange.start + visibleRange.size, totalCount)]. *)
Definition viewing (st : State.t) : Z * Z :=
  let visible := visibleRange (State.virtualItems st) (totalCount st) in
  (Range.start visible + 1,
   Z.min (Range.start visible + Range.size visible) (totalCount st)).

(** [isLoading] of the data query: it is being fetched and is pending,
    which a query shown with placeholder data is not. *)
Definition isLoading (st : State.t) : bool :=
  let q := getQuery (State.queries st) (currentKey st) in
  isFetching q &&
  match Query.status q, queryData st with
  | Pending, None => true
  | _, _ => false
  end.

(** What the component returns: the loading spinner, the "No data
    available" message, or the table. *)
Inductive View := LoadingView | NoDataView | TableView.

Definition view (st : State.t) : View :=
  if decide (totalCount st = 0) then
    if isLoading st then LoadingView else NoDataView
  else TableView.

(** ** Sample registries used in examples *)

Definition sampleTenants : list Tenant.t :=
  [Tenant.mk "tenant_1" "Acme" "acme" "2024-01-01T00:00:00.000Z" 2;
   Tenant.mk "tenant_2" "Globex" "globex" "2024-02-01T00:00:00.000Z" 1].

Definition sampleApps : list App.t :=
  [App.mk "app_1" "tenant_1" "Ledger" "Books" "L" 50000
     "2024-03-01T00:00:00.000Z";
   App.mk "app_2" "tenant_1" "Roster" "People" "R" 120
     "2024-03-02T00:00:00.000Z";
   App.mk "app_3" "tenant_2" "Depot" "Stock" "D" 4000
     "2024-03-03T00:00:00.000Z"].

Definition sampleFiles : Registry.t :=
  Registry.mk (Some sampleTenants) (Some sampleApps).

(** ** More invariants of the fetch cycle *)

(** The debounce is consistent with the screen: a pending timer carries
    the current [visibleRange] and is due within [DEBOUNCE_MS]; with no
    timer pending, [debouncedRange] is the current [visibleRange]. *)
Definition debounceConsistent (st : State.t) : Prop :=
  let visible := visibleRange (State.virtualItems st) (totalCount st) in
  match State.timer st with
  | Some (due, r) => r = visible ∧ (due ≤ State.now st + DEBOUNCE_MS)%N
  | None => State.debouncedRange st = visible
  end.

(** An event that does not report a positive [totalCount]. *)
Definition reportsNoRows (ev : Event) : Prop :=
  match ev with
  | MetaLoaded n => n ≤ 0
  | _ => True
  end.

(** The data query has not been used: no positive [totalCount] so far, no
    request made, nothing cached. *)
Definition unused (st : State.t) : Prop :=
  totalCount st ≤ 0 ∧ State.requests st = [] ∧ State.queries st = ∅.

(** After the window of rows 2000..2012 has loaded, the user scrolls back
    to the top. *)
Definition scrolledBack : list Event :=
  scrolledAndLoaded ++ [Scroll (rows 20 10)].

(** ** The seed script (scripts/seed.js) *)

Definition NUM_TENANTS : Z := 5.
Definition NUM_APPS_PER_TENANT : Z := 3.
Definition NUM_RECORDS : Z := 50000.

(** What the faker library returns while one entity is generated; the
    argument is the number of the entity (the tenant's [i], the app's
    [appCounter], the record's [i]).  The values are random, so they are
    parameters of the model. *)
Module Faker.
Record t := mk {
  companyName : Z → string;
  domainWord : Z → string;
  tenantCreatedAt : Z → string;
  productName : Z → string;
  noun : Z → string;
  catchPhrase : Z → string;
  emoji : Z → string;
  numberInt : Z → Z;
  appCreatedAt : Z → string;
  firstName : Z → string;
  lastName : Z → string;
  email : Z → string;
  jobTitle : Z → string;
  recordCompany : Z → string;
  arrayElement : Z → string;
  recordCreatedAt : Z → string
}.
End Faker.

(** An integer spliced into a template literal, as a string. *)
Definition decimal (n : Z) : string :=
  string_of_list_ascii (ascii_of_N <$> Number_toString n).

(** The first loop: [tenants.push({ id: `tenant_${i}`, ... })] for
    [i = 1 .. NUM_TENANTS]. *)
Definition seedTenant (faker : Faker.t) (i : Z) : Tenant.t :=
  Tenant.mk ("tenant_" ++ decimal i) (Faker.companyName faker i)
    (Faker.domainWord faker i) (Faker.tenantCreatedAt faker i)
    NUM_APPS_PER_TENANT.

Definition seedTenants (faker : Faker.t) : list Tenant.t :=
  seedTenant faker <$> seqZ 1 NUM_TENANTS.

(** The object pushed for one app. *)
Definition seedApp (faker : Faker.t) (appCounter : Z) (tenant : Tenant.t)
  : App.t :=
  App.mk ("app_" ++ decimal appCounter) (Tenant.id tenant)
    (Faker.productName faker appCounter ++ " " ++ Faker.noun faker appCounter)
    (Faker.catchPhrase faker appCounter) (Faker.emoji faker appCounter)
    (if decide (appCounter = 1) then NUM_RECORDS
     else Faker.numberInt faker appCounter)
    (Faker.appCreatedAt faker appCounter).

(** The nested loops over the tenants and over [j = 1 ..
    NUM_APPS_PER_TENANT]; the state is the array [apps] and the counter
    [appCounter], which starts at 1 and is incremented after each push. *)
Definition seedApps (faker : Faker.t) (tenants : list Tenant.t)
  : list App.t :=
  fst (foldl
         (fun state tenant =>
            foldl (fun '(apps, appCounter) (j : Z) =>
                     (apps ++ [seedApp faker appCounter tenant],
                      appCounter + 1))
                  state (seqZ 1 NUM_APPS_PER_TENANT))
         ([], 1) tenants).

(** The third loop: [largeDataset.push({ id: i, ... })] for
    [i = 1 .. NUM_RECORDS]. *)
Definition seedRecord (faker : Faker.t) (i : Z) : DataRecord.t :=
  DataRecord.mk i (Faker.firstName faker i) (Faker.lastName faker i)
    (Faker.email faker i) (Faker.jobTitle faker i)
    (Faker.recordCompany faker i) (Faker.arrayElement faker i)
    (Faker.recordCreatedAt faker i).

Definition seedData (faker : Faker.t) : list DataRecord.t :=
  seedRecord faker <$> seqZ 1 NUM_RECORDS.

(** The data directory as the script leaves it in a directory it has
    created: [tenants.json], [apps.json] and the one data file
    [app_1_data.json]; each array is read back as it was written. *)
Definition seedFiles (faker : Faker.t) : Registry.t :=
  Registry.mk (Some (seedTenants faker))
              (Some (seedApps faker (seedTenants faker))).

Definition seedDir (faker : Faker.t) : string → DataFile :=
  fun appId =>
    if String.eqb appId "app_1" then Records (seedData faker) else Absent.

(** A faker that returns the same values every time. *)
Definition sampleFaker : Faker.t :=
  Faker.mk
    (fun _ => "Acme"%string) (fun _ => "acme"%string)
    (fun _ => "2024-01-01T00:00:00.000Z"%string)
    (fun _ => "Ledger"%string) (fun _ => "book"%string)
    (fun _ => "Books"%string) (fun _ => "L"%string) (fun _ => 100)
    (fun _ => "2024-03-01T00:00:00.000Z"%string)
    (fun _ => "Ada"%string) (fun _ => "Lovelace"%string)
    (fun _ => "ada@example.org"%string) (fun _ => "Engineer"%string)
    (fun _ => "Acme"%string) (fun _ => "Active"%string)
    (fun _ => "2024-01-01T00:00:00.000Z"%string).

(** The apps pushed for one tenant, and for a list of tenants, when the
    counter stands at [appCounter] on entry. *)
Definition appsOfTenant (faker : Faker.t) (appCounter : Z) (tenant : Tenant.t)
  : list App.t :=
  [seedApp faker appCounter tenant;
   seedApp faker (appCounter + 1) tenant;
   seedApp faker (appCounter + 2) tenant].

Fixpoint appsFrom (faker : Faker.t) (appCounter : Z) (tenants : list Tenant.t)
  : list App.t :=
  match tenants with
  | [] => []
  | tenant :: rest =>
      appsOfTenant faker appCounter tenant
      ++ appsFrom faker (appCounter + NUM_APPS_PER_TENANT) rest
  end.
(** ** Window calculator: properties *)

Example visibleRange_no_items : visibleRange [] 50000 = Range.mk 0 50.
Proof. reflexivity. Qed.

Example visibleRange_top : visibleRange (rows 0 18) 50000 = Range.mk 0 38.
Proof. reflexivity. Qed.

Example visibleRange_bottom :
  visibleRange (rows 49982 18) 50000 = Range.mk 49962 38.
Proof. reflexivity. Qed.

Lemma List_last_cons {A} (rest : list A) (x d : A) :
  List.last (x :: rest) d = List.last rest x.
Proof.
  revert x d. induction rest as [|b rest IH]; intros x d; [done|].
  change (List.last (x :: b :: rest) d) with (List.last (b :: rest) d).
  by rewrite !IH.
Qed.

Lemma last_cons_default {A} (rest : list A) (x : A) :
  list.last (x :: rest) = Some (List.last rest x).
Proof.
  revert x. induction rest as [|b rest IH]; intros x; [done|].
  change (list.last (x :: b :: rest)) with (list.last (b :: rest)).
  by rewrite IH, List_last_cons.
Qed.

Lemma head_last_cons {A} (l : list A) (x y : A) :
  head l = Some x → list.last l = Some y →
  ∃ rest, l = x :: rest ∧ List.last rest x = y.
Proof.
  destruct l as [|a rest]; [done|].
  intros [= ->] Hl. exists rest. split; [done|].
  rewrite last_cons_default in Hl. by injection Hl.
Qed.

(** C1. For a non-empty list of virtual items whose first and last entries
    carry the indices [firstVisible] and [lastVisible], [visibleRange]
    returns [start = max(0, firstVisible - BUFFER)] and
    [size = end - start + 1] with
    [end = min(totalCount - 1, lastVisible + BUFFER)], where [BUFFER = 20];
    with 50000 rows and visible rows 2000..2012 the result is
    [{start: 1980, size: 53}]. *)
Theorem visibleRange_window (virtualItems : list VirtualItem.t)
    (totalCount : Z) (f l : VirtualItem.t) :
  head virtualItems = Some f →
  list.last virtualItems = Some l →
  let firstVisible := VirtualItem.index f in
  let lastVisible := VirtualItem.index l in
  let start := Z.max 0 (firstVisible - 20) in
  let end_ := Z.min (totalCount - 1) (lastVisible + 20) in
  BUFFER_SIZE = 20 ∧
  visibleRange virtualItems totalCount = Range.mk start (end_ - start + 1) ∧
  visibleRange (rows 2000 13) 50000 = Range.mk 1980 53.
Proof.
  intros Hf Hl. cbv zeta.
  destruct (head_last_cons _ _ _ Hf Hl) as (rest & -> & <-).
  split; [reflexivity|]. split; reflexivity.
Qed.

Lemma visibleRange_window_witness :
  visibleRange (rows 2000 13) 50000 = Range.mk 1980 53.
Proof.
  refine (proj1 (proj2 (visibleRange_window (rows 2000 13) 50000
    (VirtualItem.mk 2000 2000 100000 50) (VirtualItem.mk 2012 2012 100600 50)
    _ _))); reflexivity.
Defined.

(** C2. With [totalCount > 0] and
    [0 ≤ firstVisible ≤ lastVisible ≤ totalCount - 1] the window stays
    inside the dataset: [0 ≤ start] and [start + size - 1 ≤ totalCount - 1];
    when the last visible row is the last record, the window ends exactly
    there. *)
Theorem visibleRange_in_bounds (virtualItems : list VirtualItem.t)
    (totalCount : Z) (f l : VirtualItem.t) :
  head virtualItems = Some f →
  list.last virtualItems = Some l →
  totalCount > 0 →
  0 ≤ VirtualItem.index f →
  VirtualItem.index f ≤ VirtualItem.index l →
  VirtualItem.index l ≤ totalCount - 1 →
  let r := visibleRange virtualItems totalCount in
  0 ≤ Range.start r ∧
  Range.start r + Range.size r - 1 ≤ totalCount - 1 ∧
  (VirtualItem.index l = totalCount - 1 →
   Range.start r + Range.size r - 1 = totalCount - 1).
Proof.
  intros Hf Hl Hpos H0 Hfl Hlt.
  destruct (head_last_cons _ _ _ Hf Hl) as (rest & -> & <-).
  cbn [visibleRange Range.start Range.size]. unfold BUFFER_SIZE in *.
  repeat split; lia.
Qed.

Lemma visibleRange_in_bounds_witness :
  let r := visibleRange (rows 49982 18) 50000 in
  0 ≤ Range.start r ∧
  Range.start r + Range.size r - 1 ≤ 50000 - 1 ∧
  (49999 = 50000 - 1 → Range.start r + Range.size r - 1 = 50000 - 1).
Proof.
  apply (visibleRange_in_bounds (rows 49982 18) 50000
    (VirtualItem.mk 49982 49982 2499100 50)
    (VirtualItem.mk 49999 49999 2499950 50));
    first [reflexivity | simpl; lia].
Defined.

(** ** Range store: properties *)

Example slice_inside : slice [10; 11; 12; 13; 14] 1 3 = [11; 12].
Proof. reflexivity. Qed.

Example slice_past_end : slice [10; 11; 12; 13; 14] 3 10 = [13; 14].
Proof. reflexivity. Qed.

Example slice_beyond : slice [10; 11; 12; 13; 14] 7 10 = [].
Proof. reflexivity. Qed.

Example slice_from_end : slice [10; 11; 12; 13; 14] (-2) 5 = [13; 14].
Proof. reflexivity. Qed.

Lemma slice_from_nonneg {A} (l : list A) (start end_ : Z) :
  0 ≤ start → 0 ≤ end_ →
  slice l start end_ =
    take (Z.to_nat (Z.min end_ (Z.of_nat (length l)) - start))
         (drop (Z.to_nat start) l).
Proof.
  intros Hs He. unfold slice.
  destruct (Z.ltb_spec start 0) as [?|_]; [lia|].
  destruct (Z.ltb_spec end_ 0) as [?|_]; [lia|].
  destruct (Z.le_gt_cases start (Z.of_nat (length l))) as [Hle|Hgt].
  - by rewrite (Z.min_l start) by lia.
  - rewrite (Z.min_r start) by lia.
    rewrite !drop_ge by lia. by rewrite !take_nil.
Qed.

Lemma slice_lookup {A} (l : list A) (start end_ : Z) (i : nat) :
  0 ≤ start → 0 ≤ end_ →
  slice l start end_ !! i =
    if decide (start + Z.of_nat i < Z.min end_ (Z.of_nat (length l)))
    then l !! Z.to_nat (start + Z.of_nat i) else None.
Proof.
  intros Hs He. rewrite slice_from_nonneg by done.
  rewrite lookup_take, lookup_drop.
  repeat case_decide; try lia; [f_equal; lia|done].
Qed.

Lemma slice_length {A} (l : list A) (start end_ : Z) :
  0 ≤ start → 0 ≤ end_ →
  Z.of_nat (length (slice l start end_)) =
    Z.max 0 (Z.min end_ (Z.of_nat (length l)) - start).
Proof.
  intros Hs He. rewrite slice_from_nonneg by done.
  rewrite length_take, length_drop. lia.
Qed.

Lemma slice_first {A} (l : list A) (n : Z) :
  0 ≤ n → slice l 0 n = take (Z.to_nat n) l.
Proof.
  intros Hn. rewrite slice_from_nonneg by lia.
  change (Z.to_nat 0) with 0%nat. rewrite drop_0, Z.sub_0_r.
  destruct (Z.le_gt_cases n (Z.of_nat (length l))).
  - by rewrite Z.min_l by lia.
  - rewrite Z.min_r by lia. by rewrite !take_ge by lia.
Qed.

(** C8. For [start ≥ 0] and [size > 0] the range store does not throw on a
    readable data file, whatever [start + size] is: it returns the records
    from index [start] up to [min(start + size, totalCount)], so
    [data.length ≤ size], and [data.length < size] only when
    [start + size > totalCount]. *)
Theorem getAppDataRange_clamps (dir : string → DataFile) (appId : string)
    (allData : list DataRecord.t) (start size : Z) :
  dir appId = Records allData →
  0 ≤ start → 0 < size →
  let totalCount := Z.of_nat (length allData) in
  ∃ data,
    getAppDataRange dir appId start size
      = Some (RangeQueryResult.mk data totalCount) ∧
    (∀ i : nat,
       data !! i =
         if decide (start + Z.of_nat i < Z.min (start + size) totalCount)
         then allData !! Z.to_nat (start + Z.of_nat i) else None) ∧
    Z.of_nat (length data) = Z.max 0 (Z.min (start + size) totalCount - start) ∧
    Z.of_nat (length data) ≤ size ∧
    (Z.of_nat (length data) < size → start + size > totalCount).
Proof.
  intros Hdir Hs Hz totalCount. unfold getAppDataRange. rewrite Hdir.
  eexists. split; [reflexivity|].
  split; [intros i; apply slice_lookup; lia|].
  rewrite slice_length by lia. fold totalCount. lia.
Qed.

Lemma getAppDataRange_clamps_witness :
  ∃ data,
    getAppDataRange (sampleDir 60) "app_1" 40 53
      = Some (RangeQueryResult.mk data 60) ∧
    (∀ i : nat,
       data !! i =
         if decide (40 + Z.of_nat i < Z.min (40 + 53) 60)
         then sampleData 60 !! Z.to_nat (40 + Z.of_nat i) else None) ∧
    Z.of_nat (length data) = Z.max 0 (Z.min (40 + 53) 60 - 40) ∧
    Z.of_nat (length data) ≤ 53 ∧
    (Z.of_nat (length data) < 53 → 40 + 53 > 60).
Proof.
  apply (getAppDataRange_clamps (sampleDir 60) "app_1" (sampleData 60) 40 53);
    first [reflexivity | lia].
Defined.

(** ** Route handler: properties *)

Example parseInt_digits : parseInt (str "1980") = Some 1980.
Proof. reflexivity. Qed.

Example parseInt_prefix : parseInt (str "  -12px") = Some (-12).
Proof. reflexivity. Qed.

Example parseInt_no_digits : parseInt (str "abc") = None.
Proof. reflexivity. Qed.

Example parseInt_sign_only : parseInt (str "-") = None.
Proof. reflexivity. Qed.

Example GET_unknown_app :
  GET (sampleDir 60) (Request.mk "app_9" None None)
    = Response.mk 200 (DataBody [] 0).
Proof. reflexivity. Qed.

Example GET_unreadable :
  GET (fun _ => Unreadable) (Request.mk "app_1" None None)
    = Response.mk 500 (ErrorBody "Internal server error").
Proof. reflexivity. Qed.

(** C9. With explicit (non-empty) [start] and [size] parameters the handler
    answers 400 exactly when [start] parses to [NaN] or a negative number, or
    [size] parses to [NaN], to a number [≤ 0] or to a number [> 1000]; in
    every other case it runs the range query on the parsed values. *)
Theorem GET_validation (dir : string → DataFile) (appId : string)
    (s z : list N) :
  s ≠ [] → z ≠ [] →
  let request := Request.mk appId (Some s) (Some z) in
  let invalid :=
    (parseInt s = None ∨ ∃ n, parseInt s = Some n ∧ n < 0) ∨
    (parseInt z = None ∨ ∃ n, parseInt z = Some n ∧ (n ≤ 0 ∨ n > 1000)) in
  (Response.status (GET dir request) = 400 ↔ invalid) ∧
  (¬ invalid →
   ∃ start size,
     parseInt s = Some start ∧ parseInt z = Some size ∧
     GET dir request =
       match getAppDataRange dir appId start size with
       | Some result =>
           Response.mk 200
             (DataBody (RangeQueryResult.data result)
                       (RangeQueryResult.totalCount result))
       | None => Response.mk 500 (ErrorBody "Internal server error")
       end).
Proof.
  intros Hs Hz request invalid. subst request invalid.
  destruct s as [|c s]; [done|]. destruct z as [|d z]; [done|].
  unfold GET, paramOr. cbn [Request.appId Request.startParam Request.sizeParam].
  destruct (parseInt (c :: s)) as [a|] eqn:Ha; cbn [isNaN num_lt orb default];
    [|split; [split; [intros _; auto | done] | intros []; auto]].
  destruct (Z.ltb_spec a 0) as [Hneg|Hnn].
  { split; [split; [intros _; left; right; eauto | done]|].
    intros []. left; right; eauto. }
  destruct (parseInt (d :: z)) as [b|] eqn:Hb;
    cbn [isNaN num_le num_gt orb default];
    [|split; [split; [intros _; auto | done] | intros []; auto]].
  destruct (Z.leb_spec b 0) as [Hle|Hpos]; cbn [orb].
  { split; [split; [intros _; right; right; exists b; split; [done|lia] | done]|].
    intros []. right; right; exists b; split; [done|lia]. }
  destruct (Z.ltb_spec 1000 b) as [Hbig|Hsmall].
  { split; [split; [intros _; right; right; exists b; split; [done|lia] | done]|].
    intros []. right; right; exists b; split; [done|lia]. }
  cbn [default from_option id]. split.
  - split.
    + intros H400. exfalso.
      destruct (getAppDataRange dir appId a b); cbn in H400; discriminate H400.
    + intros [[?|(n & [= <-] & ?)]|[?|(n & [= <-] & ?)]]; try done; lia.
  - intros _. by exists a, b.
Qed.

Lemma GET_validation_witness :
  Response.status
    (GET (sampleDir 60) (Request.mk "app_1" (Some (str "0")) (Some (str "1001"))))
    = 400.
Proof.
  refine (proj2 (proj1 (GET_validation (sampleDir 60) "app_1"
    (str "0") (str "1001") _ _)) _).
  - discriminate.
  - discriminate.
  - right; right. exists 1001. split; [reflexivity | lia].
Defined.

(** C10. A missing or empty [start] parameter is read as 0 and a missing or
    empty [size] parameter as 50; these defaults pass validation (the answer
    is never 400), so such a request is answered like the request
    [?start=0&size=50]: on a readable data file, a 200 response carrying
    the first 50 records. *)
Theorem GET_defaults (dir : string → DataFile) (appId : string)
    (startParam sizeParam : option (list N)) :
  startParam = None ∨ startParam = Some [] →
  sizeParam = None ∨ sizeParam = Some [] →
  let request := Request.mk appId startParam sizeParam in
  paramOr startParam 0 = Some 0 ∧
  paramOr sizeParam 50 = Some 50 ∧
  Response.status (GET dir request) ≠ 400 ∧
  GET dir request =
    GET dir (Request.mk appId (Some (str "0")) (Some (str "50"))) ∧
  ∀ allData,
    dir appId = Records allData →
    GET dir request =
      Response.mk 200 (DataBody (take 50 allData) (Z.of_nat (length allData))).
Proof.
  intros Hstart Hsize request. subst request.
  assert (paramOr startParam 0 = Some 0) as Hs by (by destruct Hstart as [-> | ->]).
  assert (paramOr sizeParam 50 = Some 50) as Hz by (by destruct Hsize as [-> | ->]).
  split; [done|]. split; [done|].
  unfold GET, getAppDataRange.
  cbn [Request.appId Request.startParam Request.sizeParam].
  rewrite Hs, Hz.
  change (paramOr (Some (str "0")) 0) with (Some 0).
  change (paramOr (Some (str "50")) 50) with (Some 50).
  cbn [isNaN num_lt num_le num_gt orb default from_option id Z.ltb Z.leb
       Z.compare Pos.compare Pos.compare_cont].
  split; [by destruct (dir appId)|]. split; [done|].
  intros allData ->. cbn. by rewrite slice_first.
Qed.

Lemma GET_defaults_witness :
  let request := Request.mk "app_1" None (Some []) in
  paramOr None 0 = Some 0 ∧
  paramOr (Some []) 50 = Some 50 ∧
  Response.status (GET (sampleDir 60) request) ≠ 400 ∧
  GET (sampleDir 60) request =
    GET (sampleDir 60) (Request.mk "app_1" (Some (str "0")) (Some (str "50"))) ∧
  ∀ allData,
    sampleDir 60 "app_1" = Records allData →
    GET (sampleDir 60) request =
      Response.mk 200 (DataBody (take 50 allData) (Z.of_nat (length allData))).
Proof.
  apply (GET_defaults (sampleDir 60) "app_1" None (Some []));
    [by left | by right].
Defined.

(** ** Numbers in the query string: printing then parsing *)

Lemma parseDigits_acc (d : Decimal.uint) (p : positive) :
  parseDigits (uint_units d) (Npos p) true = Some (Npos (Pos.of_uint_acc d p)).
Proof.
  revert p. induction d; intros p; cbn [uint_units Pos.of_uint_acc];
    [done | cbn [parseDigits isDigit N.leb N.compare Pos.compare andb];
            cbn; rewrite <- IHd; f_equal; lia ..].
Qed.

Lemma parseDigits_zero (d : Decimal.uint) :
  parseDigits (uint_units d) 0%N true = Some (Pos.of_uint d).
Proof.
  induction d; cbn [uint_units Pos.of_uint]; [done | exact IHd | ..];
    cbn -[Pos.of_uint_acc]; apply parseDigits_acc.
Qed.

Lemma parseDigits_units (d : Decimal.uint) :
  d ≠ Decimal.Nil →
  parseDigits (uint_units d) 0%N false = Some (Pos.of_uint d).
Proof.
  intros Hd. rewrite <- parseDigits_zero. by destruct d.
Qed.

Lemma parseInt_units (d : Decimal.uint) :
  d ≠ Decimal.Nil →
  parseInt (uint_units d) = Some (Z.of_N (Pos.of_uint d)).
Proof.
  intros Hd.
  transitivity (Z.of_N <$> parseDigits (uint_units d) 0%N false).
  - destruct d; [done | reflexivity ..].
  - by rewrite parseDigits_units.
Qed.

Lemma parseInt_minus_units (d : Decimal.uint) :
  d ≠ Decimal.Nil →
  parseInt (45%N :: uint_units d) = Some (- Z.of_N (Pos.of_uint d)).
Proof.
  intros Hd. unfold parseInt. cbn [trimStart isStrWhiteSpaceChar].
  change (isStrWhiteSpaceChar 45) with false. cbn iota.
  by rewrite parseDigits_units.
Qed.

(** What the client prints into the URL is what the handler parses back. *)
Lemma parseInt_toString (n : Z) : parseInt (Number_toString n) = Some n.
Proof.
  destruct n as [|p|p]; [reflexivity | ..]; unfold Number_toString; cbn [Z.to_int].
  - rewrite parseInt_units by apply DecimalPos.Unsigned.to_uint_nonnil.
    by rewrite DecimalPos.Unsigned.of_to.
  - rewrite parseInt_minus_units by apply DecimalPos.Unsigned.to_uint_nonnil.
    by rewrite DecimalPos.Unsigned.of_to.
Qed.

(** ** Step 5: the shape of [dataMap] *)

Lemma forEach_set_lookup (start : Z) (data : list DataRecord.t) (idx : nat)
    (map : gmap Z DataRecord.t) (k : Z) :
  forEach_set start idx data map !! k =
    if decide (start + Z.of_nat idx ≤ k
               < start + Z.of_nat idx + Z.of_nat (length data))
    then data !! Z.to_nat (k - start - Z.of_nat idx) else map !! k.
Proof.
  revert idx map. induction data as [|record rest IH]; intros idx map.
  - cbn [forEach_set length]. case_decide; [lia | done].
  - cbn [forEach_set length]. rewrite IH.
    destruct (decide (k = start + Z.of_nat idx)) as [->|Hne].
    + rewrite lookup_insert_eq. repeat case_decide; try lia.
      by replace (start + Z.of_nat idx - start - Z.of_nat idx) with 0 by lia.
    + rewrite lookup_insert_ne by done. repeat case_decide; try lia; [|done].
      replace (Z.to_nat (k - start - Z.of_nat idx))
        with (S (Z.to_nat (k - start - Z.of_nat (S idx)))) by lia.
      done.
Qed.

Lemma forEach_set_size (start : Z) (data : list DataRecord.t) (idx : nat)
    (map : gmap Z DataRecord.t) :
  (∀ k, start + Z.of_nat idx ≤ k → map !! k = None) →
  size (forEach_set start idx data map) = (size map + length data)%nat.
Proof.
  revert idx map. induction data as [|record rest IH]; intros idx map Hfresh.
  - cbn [forEach_set length]. lia.
  - cbn [forEach_set length]. rewrite IH.
    + rewrite map_size_insert_None by (apply Hfresh; lia). lia.
    + intros k Hk. rewrite lookup_insert_ne by lia. apply Hfresh. lia.
Qed.

(** [mapRecords] holds exactly the given records, at the contiguous keys
    [start, start + 1, ...]. *)
Lemma mapRecords_lookup (start : Z) (data : list DataRecord.t) (k : Z) :
  mapRecords start data !! k =
    if decide (start ≤ k < start + Z.of_nat (length data))
    then data !! Z.to_nat (k - start) else None.
Proof.
  unfold mapRecords. rewrite forEach_set_lookup, lookup_empty.
  repeat case_decide; try lia; [f_equal; lia | done].
Qed.

Lemma mapRecords_lookup_offset (start : Z) (data : list DataRecord.t) (i : nat) :
  mapRecords start data !! (start + Z.of_nat i) = data !! i.
Proof.
  rewrite mapRecords_lookup. case_decide.
  - f_equal. lia.
  - symmetry. apply lookup_ge_None. lia.
Qed.

Lemma mapRecords_size (start : Z) (data : list DataRecord.t) :
  size (mapRecords start data) = length data.
Proof.
  unfold mapRecords. rewrite forEach_set_size by (intros; apply lookup_empty).
  by rewrite map_size_empty.
Qed.

(** ** Step 3.5: the debounce *)

(** A state rebuilt around the same [debouncedRange] has the same current
    key. *)
Ltac same_key st :=
  match goal with
  | |- context [currentKey
                  (State.mk ?a ?b ?c (State.debouncedRange st) ?d ?e ?f ?g)] =>
      replace (currentKey (State.mk a b c (State.debouncedRange st) d e f g))
        with (currentKey st) by reflexivity
  end.

Lemma trackDefined_fields (st : State.t) :
  State.now (trackDefined st) = State.now st ∧
  State.metaData (trackDefined st) = State.metaData st ∧
  State.virtualItems (trackDefined st) = State.virtualItems st ∧
  State.debouncedRange (trackDefined st) = State.debouncedRange st ∧
  State.timer (trackDefined st) = State.timer st ∧
  State.queries (trackDefined st) = State.queries st ∧
  State.requests (trackDefined st) = State.requests st.
Proof. unfold trackDefined. by destruct (Query.data _). Qed.

Lemma trackDefined_totalCount (st : State.t) :
  totalCount (trackDefined st) = totalCount st.
Proof. unfold totalCount. by rewrite (proj1 (proj2 (trackDefined_fields st))). Qed.

Lemma trackDefined_currentKey (st : State.t) :
  currentKey (trackDefined st) = currentKey st.
Proof. unfold trackDefined. by destruct (Query.data _). Qed.

Lemma sameFetchState_trackDefined (st st' : State.t) :
  sameFetchState st st' → sameFetchState st (trackDefined st').
Proof.
  intros (?&?&?&?). destruct (trackDefined_fields st') as (_&?&_&?&_&?&?).
  repeat split; congruence.
Qed.

(** A scroll only re-arms the timer. *)
Lemma step_Scroll (st : State.t) (items : list VirtualItem.t) :
  let st' := step st (Scroll items) in
  sameFetchState st st' ∧
  State.now st' = State.now st ∧
  State.timer st' =
    Some ((State.now st + DEBOUNCE_MS)%N, visibleRange items (totalCount st)).
Proof.
  cbv zeta. unfold step.
  destruct (trackDefined_fields (react st (Scroll items))) as (->&_&_&_&->&_&_).
  split; [|done]. by apply sameFetchState_trackDefined.
Qed.

(** Time that passes before the timer is due changes nothing but the
    clock. *)
Lemma step_Elapse_early (st : State.t) (due : N) (r : Range.t) (d : N) :
  State.timer st = Some (due, r) →
  (State.now st + d < due)%N →
  let st' := step st (Elapse d) in
  sameFetchState st st' ∧
  State.now st' = (State.now st + d)%N ∧
  State.timer st' = Some (due, r).
Proof.
  intros Htimer Hearly. cbv zeta. unfold step.
  destruct (trackDefined_fields (react st (Elapse d))) as (->&_&_&_&->&_&_).
  assert (react st (Elapse d) =
    State.mk (State.now st + d)%N (State.metaData st) (State.virtualItems st)
      (State.debouncedRange st) (State.timer st) (State.queries st)
      (State.lastDefined st) (State.requests st)) as Hreact.
  { cbn [react]. rewrite Htimer.
    destruct (N.leb_spec due (State.now st + d)); [lia | done]. }
  split; [apply sameFetchState_trackDefined|]; by rewrite Hreact.
Qed.

Lemma sameFetchState_totalCount (st st' : State.t) :
  sameFetchState st st' → totalCount st' = totalCount st.
Proof. intros (H&_). unfold totalCount. by rewrite H. Qed.

Lemma sameFetchState_trans (st1 st2 st3 : State.t) :
  sameFetchState st1 st2 → sameFetchState st2 st3 → sameFetchState st1 st3.
Proof. intros (?&?&?&?) (?&?&?&?). repeat split; congruence. Qed.

Lemma run_app (st : State.t) (evs evs' : list Event) :
  run st (evs ++ evs') = run (run st evs) evs'.
Proof. apply foldl_app. Qed.

(** During a rapid burst the timer never fires: no request is made and
    [debouncedRange] stays put. *)
Lemma burst_quiet (scrolls : list (list VirtualItem.t * N)) (st : State.t) :
  rapid scrolls →
  sameFetchState st (run st (burst scrolls)) ∧
  State.now (run st (burst scrolls)) =
    (State.now st + foldr N.add 0 (snd <$> scrolls))%N.
Proof.
  revert st. induction scrolls as [|[items gap] scrolls IH]; intros st Hrapid.
  - cbn. split; [done | lia].
  - unfold rapid in Hrapid. apply Forall_cons_1 in Hrapid as [Hgap Hrapid].
    change (burst ((items, gap) :: scrolls))
      with ([Scroll items; Elapse gap] ++ burst scrolls).
    rewrite run_app. cbn [run foldl].
    destruct (step_Scroll st items) as (Hsame1 & Hnow1 & Htimer1).
    destruct (step_Elapse_early _ _ _ gap Htimer1) as (Hsame2 & Hnow2 & _);
      [lia|].
    destruct (IH (step (step st (Scroll items)) (Elapse gap)) Hrapid)
      as (Hsame3 & Hnow3).
    split.
    + eauto using sameFetchState_trans.
    + change (run (foldl step st [Scroll items; Elapse gap]) (burst scrolls))
        with (run (step (step st (Scroll items)) (Elapse gap)) (burst scrolls)).
      rewrite Hnow3, Hnow2, Hnow1. cbn [fmap list_fmap foldr snd]. lia.
Qed.

(** Firing the timer: [debouncedRange] takes the captured range, and the
    query for it is fetched when its key is new, enabled, stale and not in
    flight. *)
Lemma step_Elapse_fire (st : State.t) (due : N) (r : Range.t) (d : N) :
  State.timer st = Some (due, r) →
  (due ≤ State.now st + d)%N →
  let st' := step st (Elapse d) in
  let q := getQuery (State.queries st) (queryKey r) in
  State.now st' = (State.now st + d)%N ∧
  State.debouncedRange st' = r ∧
  State.timer st' = None ∧
  State.metaData st' = State.metaData st ∧
  State.requests st' = State.requests st ++
    (if bool_decide (queryKey r ≠ currentKey st) && enabled st
        && negb (isFetching q) && isStale q (State.now st + d)
     then [queryKey r] else []).
Proof.
  intros Htimer Hdue. cbv zeta. unfold step.
  destruct (trackDefined_fields (react st (Elapse d))) as (->&->&_&->&->&_&->).
  cbn [react]. rewrite Htimer.
  destruct (N.leb_spec due (State.now st + d)) as [_|?]; [|lia].
  destruct (decide (queryKey r = currentKey st)) as [Heq|Hne].
  - rewrite bool_decide_eq_false_2 by (by intros []).
    cbn. by rewrite app_nil_r.
  - rewrite bool_decide_eq_true_2 by done.
    unfold fetchOptionally.
    change (currentKey (State.mk _ _ _ r _ _ _ _)) with (queryKey r).
    change (enabled (State.mk ?n (State.metaData st) _ _ _ _ _ _))
      with (enabled st).
    cbn [State.queries State.now andb].
    destruct (enabled st && _ && _); cbn; by rewrite ?app_nil_r.
Qed.

(** C3 (as amended). When several desired ranges arrive in a rapid burst,
    each re-arming the 300 ms timer, nothing is requested during the burst;
    once the burst is followed by a quiet interval the timer fires once,
    [debouncedRange] becomes the last range of the burst, and at most one
    request is made then: exactly one, for that range, when
    [totalCount > 0], its [(start, size)] differs from the range shown so
    far, and no result for it is in flight or cached for less than
    [staleTime]; none otherwise. *)
Theorem debounce_coalesces (st : State.t)
    (scrolls : list (list VirtualItem.t * N)) (items : list VirtualItem.t)
    (d : N) :
  rapid scrolls →
  (DEBOUNCE_MS ≤ d)%N →
  let quiet := run st (burst scrolls ++ [Scroll items]) in
  let st' := run st (burst scrolls ++ [Scroll items; Elapse d]) in
  let r := visibleRange items (totalCount st) in
  let q := getQuery (State.queries st) (queryKey r) in
  State.requests quiet = State.requests st ∧
  State.debouncedRange quiet = State.debouncedRange st ∧
  State.debouncedRange st' = r ∧
  State.timer st' = None ∧
  State.requests st' = State.requests st ++
    (if bool_decide (queryKey r ≠ currentKey st) && enabled st
        && negb (isFetching q) && isStale q (State.now st')
     then [queryKey r] else []).
Proof.
  intros Hrapid Hd. cbv zeta.
  rewrite !run_app. cbn [run foldl].
  destruct (burst_quiet scrolls st Hrapid) as (Hsame1 & Hnow1).
  set (st1 := run st (burst scrolls)) in *.
  destruct (step_Scroll st1 items) as (Hsame2 & Hnow2 & Htimer2).
  rewrite (sameFetchState_totalCount _ _ Hsame1) in Htimer2.
  pose proof (sameFetchState_trans _ _ _ Hsame1 Hsame2) as (Hmeta & Hdeb & Hq & Hreq).
  fold (run st (burst scrolls)). fold st1.
  split; [done|]. split; [done|].
  destruct (step_Elapse_fire _ _ _ d Htimer2) as (Hnow3 & -> & -> & _ & ->);
    [lia|].
  split; [done|]. split; [done|].
  rewrite Hnow3, Hreq, Hq. unfold currentKey, enabled, totalCount.
  by rewrite Hdeb, Hmeta.
Qed.

(** C3, the claim as stated, fails: a burst that ends on the range already
    shown ([{10,50}] and back to [{0,50}] within 300 ms) makes the timer
    fire without any request, because the query key has not changed. *)
Lemma burst_back_to_shown_range_fetches_nothing :
  let st := run mounted (loaded 1000) in
  let scrolls := [(rows 30 10, 100%N)] in
  let st' := run st (burst scrolls ++ [Scroll (rows 20 10); Elapse 300%N]) in
  (0 < totalCount st ∧ rapid scrolls ∧ (DEBOUNCE_MS ≤ 300)%N) ∧
  State.debouncedRange st = Range.mk 0 50 ∧
  visibleRange (rows 30 10) (totalCount st) = Range.mk 10 50 ∧
  visibleRange (rows 20 10) (totalCount st) = Range.mk 0 50 ∧
  State.debouncedRange st' = Range.mk 0 50 ∧
  State.requests st' = State.requests st ∧
  ¬ every_burst_fetches_once.
Proof.
  cbv zeta.
  assert (0 < totalCount (run mounted (loaded 1000))) as Hcount by reflexivity.
  assert (rapid [(rows 30 10, 100%N)]) as Hrapid by (repeat constructor).
  assert (DEBOUNCE_MS ≤ 300)%N as Hd by reflexivity.
  split; [done|]. do 5 (split; [by vm_compute|]).
  intros H.
  specialize (H (loaded 1000) [(rows 30 10, 100%N)] (rows 20 10) 300%N
                Hcount Hrapid Hd).
  vm_compute in H. discriminate H.
Qed.

(** The scenario of the specification: the ranges [{0,50}], [{10,50}],
    [{25,50}] arrive within 300 ms of each other while [{0,50}] is shown;
    one request, for [{25,50}], follows. *)
Lemma debounce_coalesces_witness :
  let st := run mounted (loaded 1000) in
  let scrolls := [(rows 20 10, 100%N); (rows 30 10, 100%N)] in
  let quiet := run st (burst scrolls ++ [Scroll (rows 45 10)]) in
  let st' := run st (burst scrolls ++ [Scroll (rows 45 10); Elapse 300%N]) in
  (visibleRange (rows 20 10) 1000 = Range.mk 0 50 ∧
   visibleRange (rows 30 10) 1000 = Range.mk 10 50) ∧
  State.requests quiet = [(0, 50)] ∧
  State.debouncedRange quiet = Range.mk 0 50 ∧
  State.debouncedRange st' = Range.mk 25 50 ∧
  State.timer st' = None ∧
  State.requests st' = [(0, 50); (25, 50)].
Proof.
  cbv zeta. split; [split; reflexivity|].
  pose proof (debounce_coalesces (run mounted (loaded 1000))
    [(rows 20 10, 100%N); (rows 30 10, 100%N)] (rows 45 10) 300%N) as H.
  cbv zeta in H.
  assert (rapid [(rows 20 10, 100%N); (rows 30 10, 100%N)]) as Hrapid
    by (repeat constructor).
  assert (DEBOUNCE_MS ≤ 300)%N as Hd by reflexivity.
  destruct (H Hrapid Hd) as (H1 & H2 & H3 & H4 & H5).
  split; [exact H1|]. split; [exact H2|]. split; [exact H3|].
  split; [exact H4|exact H5].
Defined.

(** ** Step 4: matching responses to ranges *)

Lemma getQuery_insert_ne (queries : gmap (Z * Z) Query.t) (k k' : Z * Z)
    (q : Query.t) :
  k ≠ k' → getQuery (<[k := q]> queries) k' = getQuery queries k'.
Proof. intros Hne. unfold getQuery. by rewrite lookup_insert_ne. Qed.

Lemma getQuery_insert_eq (queries : gmap (Z * Z) Query.t) (k : Z * Z)
    (q : Query.t) :
  getQuery (<[k := q]> queries) k = q.
Proof. unfold getQuery. by rewrite lookup_insert_eq. Qed.

Lemma queryData_current (st : State.t) (body : Body) :
  Query.data (getQuery (State.queries st) (currentKey st)) = Some body →
  queryData st = Some body.
Proof. intros H. unfold queryData. by rewrite H. Qed.

(** A settlement for another range leaves the current query, and with it
    [queryData] and [dataMap], as they are. *)
Lemma step_settlesOther (st : State.t) (ev : Event) (body : Body) :
  settlesOther (currentKey st) ev →
  Query.data (getQuery (State.queries st) (currentKey st)) = Some body →
  let st' := step st ev in
  State.debouncedRange st' = State.debouncedRange st ∧
  Query.data (getQuery (State.queries st') (currentKey st')) = Some body.
Proof.
  intros Hother Hdata. cbv zeta. unfold step.
  rewrite trackDefined_currentKey.
  destruct (trackDefined_fields (react st ev)) as (_&_&_&->&_&->&_).
  destruct ev as [d|n|items|k body'|k]; try done; cbn in Hother; cbn [react].
  - destruct (isFetching _); [|done].
    split; [done|]. unfold currentKey at 1. cbn [State.queries State.debouncedRange].
    fold (currentKey st). by rewrite getQuery_insert_ne.
  - destruct (isFetching _); [|done].
    split; [done|]. unfold currentKey at 1. cbn [State.queries State.debouncedRange].
    fold (currentKey st). by rewrite getQuery_insert_ne.
Qed.

Lemma run_settlesOther (evs : list Event) (st : State.t) (body : Body) :
  Forall (settlesOther (currentKey st)) evs →
  Query.data (getQuery (State.queries st) (currentKey st)) = Some body →
  State.debouncedRange (run st evs) = State.debouncedRange st ∧
  queryData (run st evs) = Some body ∧
  dataMap (run st evs) = dataMap st.
Proof.
  intros Hevs Hdata.
  assert (State.debouncedRange (run st evs) = State.debouncedRange st ∧
          Query.data (getQuery (State.queries (run st evs))
                               (currentKey (run st evs))) = Some body)
    as [Hdeb Hdata'].
  { revert st Hevs Hdata. induction evs as [|ev evs IH]; intros st Hevs Hdata.
    - done.
    - apply Forall_cons_1 in Hevs as [Hev Hevs].
      destruct (step_settlesOther st ev body Hev Hdata) as (Hdeb1 & Hdata1).
      cbn [run foldl]. fold (run (step st ev) evs).
      assert (currentKey (step st ev) = currentKey st) as Hkey
        by (unfold currentKey; by rewrite Hdeb1).
      destruct (IH (step st ev)) as (Hdeb2 & Hdata2);
        [by rewrite Hkey | done |].
      split; [congruence | done]. }
  split; [done|].
  pose proof (queryData_current _ _ Hdata') as Hq'.
  pose proof (queryData_current _ _ Hdata) as Hq.
  split; [done|]. unfold dataMap. by rewrite Hq', Hq, Hdeb.
Qed.

(** Issuing, settling and remembering keep every fetch in flight the latest
    request for its key. *)
Lemma inflightLatest_fetchOptionally (st : State.t) :
  inflightLatest st → inflightLatest (fetchOptionally st).
Proof.
  intros Hinv. unfold fetchOptionally.
  destruct (enabled st && negb (isFetching _) && isStale _ _) eqn:Hgo; [|done].
  intros k q i. cbn [State.queries State.requests].
  destruct (decide (k = currentKey st)) as [->|Hne].
  - rewrite lookup_insert_eq. intros [= <-]. cbn [Query.fetching]. intros [= <-].
    split.
    + by rewrite lookup_app_r, Nat.sub_diag by lia.
    + intros j Hj. rewrite lookup_ge_None_2; [done|]. rewrite length_app. cbn. lia.
  - rewrite lookup_insert_ne by done. intros Hq Hi.
    destruct (Hinv k q i Hq Hi) as (Hlog & Hlatest).
    split.
    + by apply lookup_app_l_Some.
    + intros j Hj. destruct (decide (j < length (State.requests st))%nat).
      * rewrite lookup_app_l by done. by apply Hlatest.
      * destruct (decide (j = length (State.requests st))) as [->|].
        -- rewrite lookup_app_r, Nat.sub_diag by lia. cbn. congruence.
        -- rewrite lookup_ge_None_2; [done|]. rewrite length_app. cbn. lia.
Qed.

Lemma inflightLatest_settle (st : State.t) (k : Z * Z) (q' : Query.t)
    (st' : State.t) :
  inflightLatest st →
  Query.fetching q' = None →
  State.queries st' = <[k := q']> (State.queries st) →
  State.requests st' = State.requests st →
  inflightLatest st'.
Proof.
  intros Hinv Hidle Hq Hreq k' q i. rewrite Hq, Hreq.
  destruct (decide (k = k')) as [->|Hne].
  - rewrite lookup_insert_eq. intros [= <-]. congruence.
  - rewrite lookup_insert_ne by done. apply Hinv.
Qed.

Lemma inflightLatest_same (st st' : State.t) :
  inflightLatest st →
  State.queries st' = State.queries st →
  State.requests st' = State.requests st →
  inflightLatest st'.
Proof. intros Hinv Hq Hreq k q i. rewrite Hq, Hreq. apply Hinv. Qed.

Lemma inflightLatest_step (st : State.t) (ev : Event) :
  inflightLatest st → inflightLatest (step st ev).
Proof.
  intros Hinv. unfold step.
  destruct (trackDefined_fields (react st ev)) as (_&_&_&_&_&Hq&Hreq).
  apply (inflightLatest_same (react st ev)); [|done..]. clear Hq Hreq.
  destruct ev as [d|n|items|k body|k]; cbn [react].
  - destruct (State.timer st) as [[due r]|]; [|by eapply inflightLatest_same].
    destruct (due <=? State.now st + d)%N; [|by eapply inflightLatest_same].
    destruct (decide _); [by eapply inflightLatest_same|].
    apply inflightLatest_fetchOptionally. by eapply inflightLatest_same.
  - destruct (negb (enabled st) && _); [|by eapply inflightLatest_same].
    apply inflightLatest_fetchOptionally. by eapply inflightLatest_same.
  - by eapply inflightLatest_same.
  - destruct (isFetching _); [|done].
    eapply (inflightLatest_settle st k);
      [exact Hinv | | reflexivity | reflexivity]; reflexivity.
  - destruct (isFetching _); [|done].
    eapply (inflightLatest_settle st k);
      [exact Hinv | | reflexivity | reflexivity]; reflexivity.
Qed.

Lemma inflightLatest_run (evs : list Event) (st : State.t) :
  inflightLatest st → inflightLatest (run st evs).
Proof.
  revert st. induction evs as [|ev evs IH]; intros st Hinv; [done|].
  apply IH. by apply inflightLatest_step.
Qed.

Lemma inflightLatest_mounted : inflightLatest mounted.
Proof.
  intros k q i Hq. unfold mounted in Hq. cbn [State.queries] in Hq.
  by rewrite lookup_empty in Hq.
Qed.

(** C4 (as amended). Take two fetches of a run of the mounted component,
    A (request number [i], for range [a]) issued before B (request number
    [j], for range [b]), with B completed and holding data while A is
    still awaited.  Then A and B are fetches for different ranges, and
    whenever A's response arrives it is stored under A's own key and B's
    stays under B's.  Which of the two [dataMap] reflects is decided by
    the current range alone: while it is B's, [queryData] and [dataMap]
    keep reflecting B; when the user has gone back to A's range, A's late
    response is what is shown. *)
Theorem late_response_not_applied (history : list Event) (i j : nat)
    (a b : Z * Z) (bodyB : Body) :
  let st := run mounted history in
  State.requests st !! i = Some a →
  State.requests st !! j = Some b →
  (i < j)%nat →
  Query.fetching (getQuery (State.queries st) a) = Some i →
  Query.fetching (getQuery (State.queries st) b) ≠ Some j →
  Query.data (getQuery (State.queries st) b) = Some bodyB →
  a ≠ b ∧
  ∀ bodyA : Body,
    let st' := step st (Resolve a bodyA) in
    Query.data (getQuery (State.queries st') a) = Some bodyA ∧
    Query.data (getQuery (State.queries st') b) = Some bodyB ∧
    (currentKey st = b →
     queryData st' = Some bodyB ∧ dataMap st' = dataMap st) ∧
    (currentKey st = a → queryData st' = Some bodyA).
Proof.
  intros st Ha Hb Hij HflightA HdoneB HdataB.
  assert (a ≠ b) as Hne.
  { intros <-.
    pose proof (inflightLatest_run history mounted inflightLatest_mounted) as Hinv.
    fold st in Hinv. unfold getQuery in HflightA.
    destruct (State.queries st !! a) as [q|] eqn:Hq; [|done].
    destruct (Hinv a q i Hq HflightA) as (_ & Hlatest).
    by apply (Hlatest j Hij). }
  split; [done|]. intros bodyA st'.
  assert (State.queries st'
            = <[a := Query.mk (Some bodyA) (State.now st) Success None]>
                (State.queries st)) as Hqueries.
  { subst st'. unfold step.
    destruct (trackDefined_fields (react st (Resolve a bodyA)))
      as (_&_&_&_&_&->&_).
    cbn [react]. unfold isFetching. by rewrite HflightA. }
  assert (Query.data (getQuery (State.queries st') a) = Some bodyA) as HdataA
    by (by rewrite Hqueries, getQuery_insert_eq).
  split; [done|].
  split; [by rewrite Hqueries, getQuery_insert_ne|].
  split.
  - intros Hcur. rewrite <- Hcur in HdataB.
    by destruct (run_settlesOther [Resolve a bodyA] st bodyB) as (_ & Hq & Hmap);
      [repeat constructor; by rewrite Hcur | done |].
  - intros Hcur. apply queryData_current.
    assert (currentKey st' = a) as ->; [|done].
    subst st'. unfold step. rewrite trackDefined_currentKey.
    cbn [react]. unfold isFetching. by rewrite HflightA.
Qed.

Lemma late_response_not_applied_witness :
  let st := run mounted overtaken in
  (1980, 53) ≠ (980, 53) ∧
  ∀ bodyA : Body,
    let st' := step st (Resolve (1980, 53) bodyA) in
    let bodyB := fetched (sampleDir 3000) "app_1" (980, 53) in
    Query.data (getQuery (State.queries st') (1980, 53)) = Some bodyA ∧
    Query.data (getQuery (State.queries st') (980, 53)) = Some bodyB ∧
    (currentKey st = (980, 53) →
     queryData st' = Some bodyB ∧ dataMap st' = dataMap st) ∧
    (currentKey st = (1980, 53) → queryData st' = Some bodyA).
Proof.
  apply (late_response_not_applied overtaken 1 2 (1980, 53) (980, 53)
           (fetched (sampleDir 3000) "app_1" (980, 53)));
    first [ lia | by vm_compute ].
Defined.

(** C4, the claim as stated, fails: a response is matched to its range by
    the query key, not by the order of the requests.  After the answer
    for rows 1000..1012 (request 2) has been applied, the user scrolls
    back to rows 2000..2012 while request 1, for that window, is still
    awaited; the fetch in flight is shared, no new request is made, and
    when its answer arrives it replaces the rows on screen. *)
Lemma late_response_applied_after_scroll_back :
  let st := run mounted overtakenAndBack in
  let st' :=
    step st (Resolve (1980, 53)
                     (fetched (sampleDir 3000) "app_1" (1980, 53))) in
  State.requests st = [(0, 50); (1980, 53); (980, 53)] ∧
  Query.fetching (getQuery (State.queries st) (1980, 53)) = Some 1%nat ∧
  Query.fetching (getQuery (State.queries st) (980, 53)) = None ∧
  currentKey st = (1980, 53) ∧
  dataMap st !! 1980 = Some (sampleRecord 981) ∧
  dataMap st' !! 1980 = Some (sampleRecord 1981) ∧
  ¬ late_response_never_applied.
Proof.
  cbv zeta. do 6 (split; [by vm_compute|]).
  intros H.
  specialize (H (loaded 3000 ++
                 [Scroll (rows 2000 13); Elapse 300%N;
                  Scroll (rows 1000 13); Elapse 300%N])
                [Scroll (rows 2000 13); Elapse 300%N]
                1%nat 2%nat (1980, 53) (980, 53)
                (fetched (sampleDir 3000) "app_1" (1980, 53))
                (fetched (sampleDir 3000) "app_1" (980, 53))).
  cbv zeta in H.
  specialize (H ltac:(by vm_compute) ltac:(by vm_compute) ltac:(lia)
                ltac:(by vm_compute) ltac:(by vm_compute)
                ltac:(by vm_compute)).
  apply (f_equal (fun m => m !! 1980)) in H.
  vm_compute in H. discriminate H.
Qed.

(** ** Step 5: rows and the range they came from *)

Lemma queryData_trackDefined (st : State.t) :
  queryData (trackDefined st) = queryData st.
Proof.
  unfold trackDefined.
  destruct (Query.data (getQuery (State.queries st) (currentKey st))) eqn:Hd;
    [|done].
  unfold queryData. cbn [State.queries State.lastDefined].
  same_key st.
  by rewrite Hd.
Qed.

Lemma dataMap_trackDefined (st : State.t) :
  dataMap (trackDefined st) = dataMap st.
Proof.
  unfold dataMap.
  rewrite queryData_trackDefined.
  by destruct (trackDefined_fields st) as (_&_&_&->&_).
Qed.

(** When the response for the current range arrives, its records replace
    the contents of [dataMap], the record at offset [i] under the key
    [start + i] of that range. *)
Lemma success_replaces_dataMap (st : State.t) (data : list DataRecord.t)
    (count : Z) :
  isFetching (getQuery (State.queries st) (currentKey st)) = true →
  let st' := step st (Resolve (currentKey st) (DataBody data count)) in
  dataMap st' = mapRecords (Range.start (State.debouncedRange st)) data ∧
  ∀ i : nat,
    dataMap st' !! (Range.start (State.debouncedRange st) + Z.of_nat i)
      = data !! i.
Proof.
  intros Hflight. cbv zeta.
  assert (dataMap (step st (Resolve (currentKey st) (DataBody data count)))
            = mapRecords (Range.start (State.debouncedRange st)) data) as ->.
  { unfold step. rewrite dataMap_trackDefined. cbn [react]. rewrite Hflight.
    unfold dataMap, queryData. cbn [State.queries State.debouncedRange].
    same_key st.
    by rewrite getQuery_insert_eq. }
  split; [done|]. intros i. apply mapRecords_lookup_offset.
Qed.

(** C5 fails on the code: while the request for a new window is in flight,
    [placeholderData] hands [dataMap] the records of the previous response,
    and the loop keys them by the start of the new range.  After scrolling
    from the first page to rows 2000..2012, the records fetched for
    [(0, 50)] sit under the keys 1980..2029: the record of row 0 is shown
    as row 1980. *)
Lemma placeholder_rows_misindexed :
  let st := run mounted scrolledAway in
  State.debouncedRange st = Range.mk 1980 53 ∧
  State.requests st = [(0, 50); (1980, 53)] ∧
  Query.data (getQuery (State.queries st) (1980, 53)) = None ∧
  queryData st = Some (DataBody (take 50 (sampleData 3000)) 3000) ∧
  dataMap st = mapRecords 1980 (take 50 (sampleData 3000)) ∧
  sampleData 3000 !! 0%nat = Some (sampleRecord 1) ∧
  dataMap st !! 1980 = Some (sampleRecord 1) ∧
  dataMap st !! 0 = None.
Proof.
  cbv zeta.
  assert (queryData (run mounted scrolledAway)
            = Some (DataBody (take 50 (sampleData 3000)) 3000)) as Hq
    by (by vm_compute).
  assert (State.debouncedRange (run mounted scrolledAway) = Range.mk 1980 53)
    as Hdeb by (by vm_compute).
  assert (dataMap (run mounted scrolledAway)
            = mapRecords 1980 (take 50 (sampleData 3000))) as Hmap
    by (unfold dataMap; by rewrite Hq, Hdeb).
  split; [done|]. split; [by vm_compute|]. split; [by vm_compute|].
  split; [done|]. split; [done|]. split; [by vm_compute|].
  rewrite Hmap, !mapRecords_lookup. split; by vm_compute.
Qed.

(** ** Failed fetches *)

Lemma getQuery_insert_data (queries : gmap (Z * Z) Query.t) (k k' : Z * Z)
    (q' : Query.t) :
  Query.data q' = Query.data (getQuery queries k) →
  Query.data (getQuery (<[k := q']> queries) k')
    = Query.data (getQuery queries k').
Proof.
  intros Hdata. destruct (decide (k = k')) as [->|Hne].
  - by rewrite getQuery_insert_eq.
  - by rewrite getQuery_insert_ne.
Qed.

Lemma renderRow_empty (st : State.t) (index : Z) :
  dataMap st = ∅ → renderRow st index = Skeleton.
Proof. intros H. unfold renderRow. by rewrite H, lookup_empty. Qed.

(** The store answers the current range with an error body. *)
Lemma error_body_empties_dataMap (st : State.t) (msg : string) :
  isFetching (getQuery (State.queries st) (currentKey st)) = true →
  dataMap (step st (Resolve (currentKey st) (ErrorBody msg))) = ∅.
Proof.
  intros Hflight. unfold step. rewrite dataMap_trackDefined.
  cbn [react]. rewrite Hflight.
  unfold dataMap, queryData. cbn [State.queries State.debouncedRange].
  same_key st.
  by rewrite getQuery_insert_eq.
Qed.

(** The first fetch of the current range is rejected. *)
Lemma first_fetch_rejected_empties_dataMap (st : State.t) :
  isFetching (getQuery (State.queries st) (currentKey st)) = true →
  Query.data (getQuery (State.queries st) (currentKey st)) = None →
  dataMap (step st (Reject (currentKey st))) = ∅.
Proof.
  intros Hflight Hnone. unfold step. rewrite dataMap_trackDefined.
  cbn [react]. rewrite Hflight.
  unfold dataMap, queryData. cbn [State.queries State.debouncedRange].
  same_key st.
  rewrite getQuery_insert_eq. cbn [Query.data Query.status]. by rewrite Hnone.
Qed.

(** A rejected fetch changes no data in the cache, so it shows only where
    [queryData] reads the status: on the current query without data. *)
Lemma rejected_keeps_dataMap (st : State.t) (k : Z * Z) :
  k ≠ currentKey st ∨ is_Some (Query.data (getQuery (State.queries st) k)) →
  dataMap (step st (Reject k)) = dataMap st.
Proof.
  intros Hcase. unfold step. rewrite dataMap_trackDefined. cbn [react].
  destruct (isFetching _); [|done].
  unfold dataMap, queryData. cbn [State.queries State.debouncedRange State.lastDefined].
  same_key st.
  set (q' := Query.mk _ _ Failed None).
  assert (∀ k', Query.data (getQuery (<[k := q']> (State.queries st)) k')
                = Query.data (getQuery (State.queries st) k')) as Hdata
    by (intros k'; by apply getQuery_insert_data).
  rewrite Hdata.
  destruct (Query.data (getQuery (State.queries st) (currentKey st))) eqn:Hcur;
    [done|].
  assert (k ≠ currentKey st) as Hne.
  { destruct Hcase as [?|[body Hbody]]; [done|]. intros ->. congruence. }
  rewrite getQuery_insert_ne by done.
  destruct (Query.status _); [|done..].
  destruct (State.lastDefined st) as [k'|]; [|done]. cbn. by rewrite Hdata.
Qed.

(** C7 (as amended). A failed fetch never throws across the render path:
    [dataMap] stays a map and every row renders.  It leaves [dataMap]
    unchanged when the request was rejected and was not the first fetch of
    the current range, and when the store's error body answers a range
    other than the current one while the current range has its data.  But
    when the store answers the current range with an error body, or the
    first fetch of the current range is rejected, [dataMap] becomes empty
    and every row falls back to the skeleton. *)
Theorem failure_effect (st : State.t) (k : Z * Z) :
  isFetching (getQuery (State.queries st) k) = true →
  let current := getQuery (State.queries st) (currentKey st) in
  (k = currentKey st →
   ∀ msg index,
     let st' := step st (Resolve k (ErrorBody msg)) in
     dataMap st' = ∅ ∧ renderRow st' index = Skeleton) ∧
  (k = currentKey st → Query.data current = None →
   ∀ index,
     let st' := step st (Reject k) in
     dataMap st' = ∅ ∧ renderRow st' index = Skeleton) ∧
  (k ≠ currentKey st ∨ is_Some (Query.data (getQuery (State.queries st) k)) →
   dataMap (step st (Reject k)) = dataMap st) ∧
  (k ≠ currentKey st → is_Some (Query.data current) →
   ∀ msg, dataMap (step st (Resolve k (ErrorBody msg))) = dataMap st).
Proof.
  intros Hflight current. repeat split.
  - subst k. by apply error_body_empties_dataMap.
  - subst k. apply renderRow_empty. by apply error_body_empties_dataMap.
  - subst k. by apply first_fetch_rejected_empties_dataMap.
  - subst k. apply renderRow_empty. by apply first_fetch_rejected_empties_dataMap.
  - by apply rejected_keeps_dataMap.
  - intros Hne [body Hbody] msg.
    by destruct (run_settlesOther [Resolve k (ErrorBody msg)] st body)
      as (_ & _ & ?); [repeat constructor | |].
Qed.

Lemma failure_effect_witness :
  let st := run mounted scrolledAway in
  let k := (1980, 53) in
  let current := getQuery (State.queries st) (currentKey st) in
  (k = currentKey st →
   ∀ msg index,
     let st' := step st (Resolve k (ErrorBody msg)) in
     dataMap st' = ∅ ∧ renderRow st' index = Skeleton) ∧
  (k = currentKey st → Query.data current = None →
   ∀ index,
     let st' := step st (Reject k) in
     dataMap st' = ∅ ∧ renderRow st' index = Skeleton) ∧
  (k ≠ currentKey st ∨ is_Some (Query.data (getQuery (State.queries st) k)) →
   dataMap (step st (Reject k)) = dataMap st) ∧
  (k ≠ currentKey st → is_Some (Query.data current) →
   ∀ msg, dataMap (step st (Resolve k (ErrorBody msg))) = dataMap st).
Proof.
  apply (failure_effect (run mounted scrolledAway) (1980, 53)).
  by vm_compute.
Defined.

(** C7, the claim as stated, fails: when the data file cannot be read the
    route answers the request for the new window with
    [{ error: 'Internal server error' }]; the client takes it as the
    result of the query, [queryData.data] is undefined, and the 50 rows
    shown until then are gone. *)
Lemma error_body_clears_rows :
  let st := run mounted scrolledAway in
  let body := fetched (fun _ => Unreadable) "app_1" (1980, 53) in
  body = ErrorBody "Internal server error" ∧
  size (dataMap st) = 50%nat ∧
  dataMap (step st (Resolve (1980, 53) body)) = ∅ ∧
  ¬ failure_keeps_rows.
Proof.
  cbv zeta. split; [by vm_compute|]. split; [by vm_compute|].
  split.
  - change (fetched (fun _ => Unreadable) "app_1" (1980, 53))
      with (ErrorBody "Internal server error").
    change (1980, 53) with (currentKey (run mounted scrolledAway)).
    apply error_body_empties_dataMap. by vm_compute.
  - intros H.
    specialize (H scrolledAway
      (Resolve (1980, 53) (fetched (fun _ => Unreadable) "app_1" (1980, 53))) I).
    apply (f_equal (fun map => size map)) in H.
    vm_compute in H. discriminate H.
Qed.

(** ** The size of [dataMap] *)

(** The window is the visible rows and [BUFFER_SIZE] more on each side, or
    the default page when nothing is visible. *)
Lemma visibleRange_size (items : list VirtualItem.t) (total : Z) :
  (items = [] → Range.size (visibleRange items total) = 50) ∧
  (items ≠ [] →
   Range.size (visibleRange items total) ≤ 2 * BUFFER_SIZE + visibleCount items).
Proof.
  destruct items as [|first rest]; split; try done; intros _.
  cbn [visibleRange visibleCount Range.size]. unfold BUFFER_SIZE. lia.
Qed.

Lemma paramOr_toString (n dflt : Z) :
  paramOr (Some (Number_toString n)) dflt = Some n.
Proof.
  pose proof (parseInt_toString n) as H. unfold paramOr.
  by destruct (Number_toString n).
Qed.

(** A data body that answers the request for [(start, size)] carries at
    most [size] records. *)
Lemma fetched_length (dir : string → DataFile) (appId : string)
    (start size : Z) (data : list DataRecord.t) (count : Z) :
  fetched dir appId (start, size) = DataBody data count →
  Z.of_nat (length data) ≤ size.
Proof.
  unfold fetched, GET, requestFor.
  cbn [Request.appId Request.startParam Request.sizeParam fst snd].
  rewrite !paramOr_toString. cbn [isNaN num_lt num_le num_gt orb default from_option id].
  destruct (Z.ltb_spec start 0); [done|].
  destruct (Z.leb_spec size 0); [done|].
  destruct (Z.ltb_spec 1000 size); [done|]. cbn [orb].
  unfold getAppDataRange. destruct (dir appId) as [| |allData]; cbn; [|done|].
  - intros [= <- _]. cbn. lia.
  - intros [= <- _]. rewrite slice_length by lia. lia.
Qed.

Lemma shown_snoc (history : list Event) (ev : Event)
    (items : list VirtualItem.t) :
  items ∈ shown history → items ∈ shown (history ++ [ev]).
Proof.
  unfold shown. rewrite omap_app, app_comm_cons. intros Hin.
  apply elem_of_app. by left.
Qed.

Lemma counts_snoc (history : list Event) (ev : Event) (n : Z) :
  n ∈ counts history → n ∈ counts (history ++ [ev]).
Proof.
  unfold counts. rewrite omap_app, app_comm_cons. intros Hin.
  apply elem_of_app. by left.
Qed.

Lemma windowed_snoc (history : list Event) (ev : Event) (r : Range.t) :
  windowed history r → windowed (history ++ [ev]) r.
Proof.
  intros (items & total & Hitems & Htotal & ->). exists items, total.
  split; [by apply shown_snoc|]. split; [by apply counts_snoc|done].
Qed.

Lemma shown_Scroll (history : list Event) (items : list VirtualItem.t) :
  items ∈ shown (history ++ [Scroll items]).
Proof.
  unfold shown. rewrite omap_app, app_comm_cons.
  apply elem_of_app. right. cbn. apply list_elem_of_singleton. done.
Qed.

Lemma counts_MetaLoaded (history : list Event) (n : Z) :
  n ∈ counts (history ++ [MetaLoaded n]).
Proof.
  unfold counts. rewrite omap_app, app_comm_cons.
  apply elem_of_app. right. cbn. apply list_elem_of_singleton. done.
Qed.

Section Provenance.

(** The app whose table is mounted. *)
Variable appId : string.

Lemma cacheProvenance_snoc (history : list Event) (ev : Event)
    (st : State.t) :
  cacheProvenance appId history st →
  cacheProvenance appId (history ++ [ev]) st.
Proof.
  intros (Hitems & Hcount & Hdeb & Htimer & Hreq & Hwin & Hserved).
  split; [by apply shown_snoc|]. split; [by apply counts_snoc|].
  split; [by apply windowed_snoc|].
  split; [intros due r Hr; apply windowed_snoc; by eapply Htimer|].
  split; [done|]. split; [|done].
  intros k Hk. destruct (Hwin k Hk) as (r & Hr & ->).
  exists r. split; [by apply windowed_snoc|done].
Qed.

Lemma cacheProvenance_fetchOptionally (history : list Event) (st : State.t) :
  cacheProvenance appId history st →
  cacheProvenance appId history (fetchOptionally st).
Proof.
  intros (Hitems & Hcount & Hdeb & Htimer & Hreq & Hwin & Hserved).
  unfold fetchOptionally.
  destruct (enabled st && negb (isFetching _) && isStale _ _); [|done].
  split; [done|]. split; [done|]. split; [done|]. split; [done|].
  cbn [State.queries State.requests]. repeat split.
  - intros k q. destruct (decide (currentKey st = k)) as [<-|Hne].
    + intros _. apply elem_of_app. right. by apply list_elem_of_singleton.
    + rewrite lookup_insert_ne by done. intros Hq.
      apply elem_of_app. left. by eapply Hreq.
  - intros k [Hk|Hk]%elem_of_app; [by apply Hwin|].
    apply list_elem_of_singleton in Hk as ->. by exists (State.debouncedRange st).
  - intros k q body. destruct (decide (currentKey st = k)) as [<-|Hne].
    + rewrite lookup_insert_eq. intros [= <-]. cbn [Query.data].
      unfold getQuery.
      destruct (State.queries st !! currentKey st) as [q0|] eqn:Hq0; [|done].
      by apply Hserved.
    + rewrite lookup_insert_ne by done. apply Hserved.
Qed.

Lemma cacheProvenance_settle (history : list Event) (st : State.t)
    (k : Z * Z) (q' : Query.t) :
  cacheProvenance appId history st →
  isFetching (getQuery (State.queries st) k) = true →
  (∀ body, Query.data q' = Some body → ∃ dir, body = fetched dir appId k) →
  cacheProvenance appId history
    (State.mk (State.now st) (State.metaData st) (State.virtualItems st)
       (State.debouncedRange st) (State.timer st)
       (<[k := q']> (State.queries st)) (State.lastDefined st)
       (State.requests st)).
Proof.
  intros (Hitems & Hcount & Hdeb & Htimer & Hreq & Hwin & Hserved) Hflight Hq'.
  split; [done|]. split; [done|]. split; [done|]. split; [done|].
  cbn [State.queries State.requests]. repeat split; [|done|].
  - intros k0 q0. destruct (decide (k = k0)) as [<-|Hne].
    + intros _. unfold getQuery in Hflight.
      destruct (State.queries st !! k) as [q1|] eqn:Hq1; [|done].
      by eapply Hreq.
    + rewrite lookup_insert_ne by done. apply Hreq.
  - intros k0 q0 body. destruct (decide (k = k0)) as [<-|Hne].
    + rewrite lookup_insert_eq. intros [= <-]. apply Hq'.
    + rewrite lookup_insert_ne by done. apply Hserved.
Qed.

Lemma cacheProvenance_trackDefined (history : list Event) (st : State.t) :
  cacheProvenance appId history st →
  cacheProvenance appId history (trackDefined st).
Proof. unfold trackDefined. by destruct (Query.data _). Qed.

Lemma cacheProvenance_step (history : list Event) (st : State.t)
    (ev : Event) :
  served appId ev →
  cacheProvenance appId history st →
  cacheProvenance appId (history ++ [ev]) (step st ev).
Proof.
  intros Hev Hinv0. apply cacheProvenance_trackDefined.
  pose proof (cacheProvenance_snoc history ev st Hinv0) as Hinv.
  destruct ev as [d|n|items|k body|k]; cbn [react].
  - pose proof Hinv as (Hitems & Hcount & Hdeb & Htimer & Hrest).
    destruct (State.timer st) as [[due r]|] eqn:Ht; [|done].
    destruct (due <=? State.now st + d)%N; [|done].
    assert (cacheProvenance appId (history ++ [Elapse d])
      (State.mk (State.now st + d)%N (State.metaData st)
         (State.virtualItems st) r None (State.queries st)
         (State.lastDefined st) (State.requests st))) as Hinv'.
    { split; [done|]. split; [done|]. split; [by eapply Htimer|].
      split; [done|]. exact Hrest. }
    destruct (decide _); [done|]. by apply cacheProvenance_fetchOptionally.
  - pose proof Hinv as (Hitems & Hcount & Hdeb & Htimer & Hrest).
    match goal with
    | |- cacheProvenance _ _ (if _ then fetchOptionally ?s else _) =>
        assert (cacheProvenance appId (history ++ [MetaLoaded n]) s) as Hinv'
    end.
    { split; [done|]. split; [apply counts_MetaLoaded|]. split; [done|].
      split; [|exact Hrest].
      cbn [State.timer]. intros due r. case_decide; [apply Htimer|].
      intros [= _ <-]. exists (State.virtualItems st), n.
      split; [done|]. split; [apply counts_MetaLoaded|done]. }
    destruct (negb (enabled st) && _); [|done].
    by apply cacheProvenance_fetchOptionally.
  - destruct Hinv as (Hitems & Hcount & Hdeb & Htimer & Hrest).
    split; [apply shown_Scroll|]. split; [done|]. split; [done|].
    split; [|exact Hrest].
    cbn [State.timer]. intros due r [= _ <-]. exists items, (totalCount st).
    split; [apply shown_Scroll|done].
  - destruct (isFetching _) eqn:Hflight; [|done].
    apply cacheProvenance_settle; [done..|].
    cbn [Query.data]. intros body' [= <-]. exact Hev.
  - destruct (isFetching _) eqn:Hflight; [|done].
    apply cacheProvenance_settle; [done..|].
    cbn [Query.data]. intros body' Hbody.
    destruct Hinv as (_ & _ & _ & _ & _ & _ & Hserved).
    unfold getQuery in Hbody.
    destruct (State.queries st !! k) as [q|] eqn:Hq; [|done].
    by eapply Hserved.
Qed.

Lemma cacheProvenance_mounted : cacheProvenance appId [] mounted.
Proof.
  assert (windowed [] (visibleRange [] 0)) as Hwin.
  { exists [], 0. unfold shown, counts. cbn.
    split; [by apply list_elem_of_singleton|].
    split; [by apply list_elem_of_singleton|done]. }
  unfold mounted.
  split; [unfold shown; cbn; by apply list_elem_of_singleton|].
  split; [unfold counts; cbn; by apply list_elem_of_singleton|].
  split; [done|].
  split; [by intros due r [= _ <-]|].
  cbn [State.queries State.requests]. split; [|split].
  - intros k q Hq. by rewrite lookup_empty in Hq.
  - intros k Hk. by apply elem_of_nil in Hk.
  - intros k q body Hq. by rewrite lookup_empty in Hq.
Qed.

Lemma cacheProvenance_run (history : list Event) :
  Forall (served appId) history →
  cacheProvenance appId history (run mounted history).
Proof.
  induction history as [|ev history IH] using rev_ind; intros Hserved.
  - apply cacheProvenance_mounted.
  - apply Forall_app in Hserved as [Hhistory Hev].
    apply Forall_cons_1 in Hev as [Hev _].
    rewrite run_app. cbn [run foldl].
    apply cacheProvenance_step; [done|]. by apply IH.
Qed.

End Provenance.

(** Whatever [queryData] returns is the data of some cached query. *)
Lemma queryData_source (st : State.t) (body : Body) :
  queryData st = Some body →
  ∃ k q, State.queries st !! k = Some q ∧ Query.data q = Some body.
Proof.
  assert (∀ k, Query.data (getQuery (State.queries st) k) = Some body →
               ∃ k q, State.queries st !! k = Some q ∧ Query.data q = Some body)
    as Hget.
  { intros k. unfold getQuery.
    destruct (State.queries st !! k) as [q|] eqn:Hq; [|done]. eauto. }
  unfold queryData.
  destruct (Query.data (getQuery _ (currentKey st))) eqn:Hcur.
  - intros [= <-]. eauto.
  - destruct (Query.status _); [|done..].
    destruct (State.lastDefined st) as [k|]; [|done]. cbn. apply Hget.
Qed.

(** C6 (as amended). Whatever the mounted component has been through
    (any scrolls, timers and settlements, the responses being the
    store's), [dataMap] is empty or holds the records of one response,
    under the contiguous keys from [debouncedRange.start] on.  That
    response answers one requested window, a window the calculator
    returned for virtual items the component has had in that history, and
    there are no more entries than the size of that window.  The size is
    at most [2 * BUFFER_SIZE] plus the number of visible rows when the
    window was computed from visible rows, and 50 when it is the default
    window, computed while no row was visible; [totalCount] does not enter
    the bound. *)
Theorem dataMap_within_one_window (appId : string) (history : list Event) :
  Forall (served appId) history →
  let st := run mounted history in
  let start := Range.start (State.debouncedRange st) in
  dataMap st = ∅ ∨
  ∃ (items : list VirtualItem.t) (total : Z) (data : list DataRecord.t)
    (count : Z),
    let window := visibleRange items total in
    items ∈ shown history ∧
    total ∈ counts history ∧
    queryKey window ∈ State.requests st ∧
    Query.data (getQuery (State.queries st) (queryKey window))
      = Some (DataBody data count) ∧
    dataMap st = mapRecords start data ∧
    (∀ index,
       is_Some (dataMap st !! index) ↔
       start ≤ index < start + Z.of_nat (length data)) ∧
    size (dataMap st) = length data ∧
    Z.of_nat (length data) ≤ Range.size window ∧
    (items = [] → Range.size window = 50) ∧
    (items ≠ [] → Range.size window ≤ 2 * BUFFER_SIZE + visibleCount items).
Proof.
  intros Hserved st start.
  pose proof (cacheProvenance_run appId history Hserved)
    as (_ & _ & _ & _ & Hreq & Hwin & Hbody).
  fold st in Hreq, Hwin, Hbody.
  destruct (queryData st) as [[data count|msg]|] eqn:Hq;
    [|left; unfold dataMap; by rewrite Hq ..].
  right.
  destruct (queryData_source st _ Hq) as (k & q & Hk & Hdata).
  destruct (Hwin k (Hreq k q Hk))
    as (r & (items & total & Hitems & Htotal & ->) & ->).
  destruct (Hbody _ q _ Hk Hdata) as (dir & Hfetched).
  exists items, total, data, count. cbv zeta.
  assert (dataMap st = mapRecords start data) as Hmap
    by (unfold dataMap; by rewrite Hq).
  split; [done|]. split; [done|].
  split; [by eapply Hreq|].
  split; [unfold getQuery; by rewrite Hk|].
  split; [done|]. rewrite Hmap.
  split; [|split; [apply mapRecords_size|]].
  - intros index. rewrite mapRecords_lookup. case_decide as Hin.
    + split; [done|]. intros _. apply lookup_lt_is_Some. lia.
    + split; [by intros [? ?]|done].
  - split; [|apply visibleRange_size].
    symmetry in Hfetched. by apply fetched_length in Hfetched.
Qed.

Lemma dataMap_within_one_window_witness :
  let st := run mounted scrolledAndLoaded in
  let start := Range.start (State.debouncedRange st) in
  dataMap st = ∅ ∨
  ∃ (items : list VirtualItem.t) (total : Z) (data : list DataRecord.t)
    (count : Z),
    let window := visibleRange items total in
    items ∈ shown scrolledAndLoaded ∧
    total ∈ counts scrolledAndLoaded ∧
    queryKey window ∈ State.requests st ∧
    Query.data (getQuery (State.queries st) (queryKey window))
      = Some (DataBody data count) ∧
    dataMap st = mapRecords start data ∧
    (∀ index,
       is_Some (dataMap st !! index) ↔
       start ≤ index < start + Z.of_nat (length data)) ∧
    size (dataMap st) = length data ∧
    Z.of_nat (length data) ≤ Range.size window ∧
    (items = [] → Range.size window = 50) ∧
    (items ≠ [] → Range.size window ≤ 2 * BUFFER_SIZE + visibleCount items).
Proof.
  apply (dataMap_within_one_window "app_1" scrolledAndLoaded).
  repeat constructor; by exists (sampleDir 3000).
Defined.

(** C6, the claim as stated, fails on the default window.  Until the
    virtualizer has yielded a row, [visibleRange] is [{start: 0, size:
    50}], and that is the first window requested: with its answer in,
    [dataMap] holds 50 entries, while no row is visible and
    [2 * BUFFER_SIZE + visibleCount] is 40. *)
Lemma default_window_exceeds_visible_bound :
  let st := run mounted (loaded 1000) in
  Forall (served "app_1") (loaded 1000) ∧
  shown (loaded 1000) = [[]] ∧
  State.virtualItems st = [] ∧
  State.requests st = [(0, 50)] ∧
  size (dataMap st) = 50%nat ∧
  2 * BUFFER_SIZE + visibleCount [] = 40 ∧
  ¬ bounded_by_visible_rows.
Proof.
  cbv zeta.
  assert (Forall (served "app_1") (loaded 1000)) as Hserved
    by (repeat constructor; by exists (sampleDir 1000)).
  assert (size (dataMap (run mounted (loaded 1000))) = 50%nat) as Hsize
    by (by vm_compute).
  split; [done|]. split; [done|]. split; [done|]. split; [by vm_compute|].
  split; [done|]. split; [done|].
  intros H. destruct (H "app_1"%string (loaded 1000) Hserved) as (items & Hin & Hle).
  rewrite Hsize in Hle.
  change (shown (loaded 1000)) with [[] : list VirtualItem.t] in Hin.
  apply list_elem_of_singleton in Hin as ->.
  cbn in Hle. unfold BUFFER_SIZE in Hle. lia.
Qed.

(** ** More on the range store *)

Lemma slice_append {A} (l : list A) (start a b : Z) :
  0 ≤ start → 0 ≤ a → 0 ≤ b →
  slice l start (start + a) ++ slice l (start + a) (start + a + b)
    = slice l start (start + (a + b)).
Proof.
  intros Hs Ha Hb. apply list_eq. intros i.
  destruct (decide (i < length (slice l start (start + a)))%nat) as [Hi|Hi].
  - rewrite lookup_app_l by done.
    pose proof (slice_length l start (start + a) Hs ltac:(lia)) as Hlen.
    rewrite !slice_lookup by lia. repeat case_decide; try done; lia.
  - rewrite lookup_app_r by lia.
    pose proof (slice_length l start (start + a) Hs ltac:(lia)) as Hlen.
    rewrite !slice_lookup by lia.
    repeat case_decide; try done; try lia. f_equal. lia.
Qed.

(** X1. Consecutive windows compose: on a readable data file the records of
    the window [(start, a)] followed by those of the window
    [(start + a, b)] are the records of the window [(start, a + b)], and
    all three answers report the same [totalCount]. *)
Theorem getAppDataRange_consecutive (dir : string → DataFile)
    (appId : string) (allData : list DataRecord.t) (start a b : Z) :
  dir appId = Records allData →
  0 ≤ start → 0 ≤ a → 0 ≤ b →
  ∃ d1 d2 total,
    getAppDataRange dir appId start a = Some (RangeQueryResult.mk d1 total) ∧
    getAppDataRange dir appId (start + a) b
      = Some (RangeQueryResult.mk d2 total) ∧
    getAppDataRange dir appId start (a + b)
      = Some (RangeQueryResult.mk (d1 ++ d2) total).
Proof.
  intros Hdir Hs Ha Hb. unfold getAppDataRange. rewrite Hdir.
  eexists _, _, _. split; [reflexivity|]. split; [reflexivity|].
  by rewrite slice_append.
Qed.

Lemma getAppDataRange_consecutive_witness :
  ∃ d1 d2 total,
    getAppDataRange (sampleDir 60) "app_1" 40 10
      = Some (RangeQueryResult.mk d1 total) ∧
    getAppDataRange (sampleDir 60) "app_1" (40 + 10) 53
      = Some (RangeQueryResult.mk d2 total) ∧
    getAppDataRange (sampleDir 60) "app_1" 40 (10 + 53)
      = Some (RangeQueryResult.mk (d1 ++ d2) total).
Proof.
  apply (getAppDataRange_consecutive (sampleDir 60) "app_1" (sampleData 60));
    first [reflexivity | lia].
Defined.

(** X2. A window of positive size comes back empty exactly when it starts
    at or past the end of the data; the answer still carries the true
    [totalCount]. *)
Theorem getAppDataRange_empty_iff (dir : string → DataFile) (appId : string)
    (allData : list DataRecord.t) (start size : Z) :
  dir appId = Records allData →
  0 ≤ start → 0 < size →
  ∃ data,
    getAppDataRange dir appId start size
      = Some (RangeQueryResult.mk data (Z.of_nat (length allData))) ∧
    (data = [] ↔ Z.of_nat (length allData) ≤ start).
Proof.
  intros Hdir Hs Hz. unfold getAppDataRange. rewrite Hdir.
  eexists. split; [reflexivity|].
  pose proof (slice_length allData start (start + size) Hs ltac:(lia)) as Hlen.
  split.
  - intros Hnil. rewrite Hnil in Hlen. cbn in Hlen. lia.
  - intros Hpast. apply length_zero_iff_nil. lia.
Qed.

Lemma getAppDataRange_empty_iff_witness :
  ∃ data,
    getAppDataRange (sampleDir 60) "app_1" 60 53
      = Some (RangeQueryResult.mk data (Z.of_nat (length (sampleData 60)))) ∧
    (data = [] ↔ Z.of_nat (length (sampleData 60)) ≤ 60).
Proof.
  apply (getAppDataRange_empty_iff (sampleDir 60) "app_1" (sampleData 60));
    first [reflexivity | lia].
Defined.

(** ** The registries and the pages *)

Lemma find_first {A} (f : A → bool) (l : list A) (x : A) :
  List.find f l = Some x →
  ∃ before after,
    l = before ++ x :: after ∧ f x = true ∧ ∀ y, In y before → f y = false.
Proof.
  induction l as [|a l IH]; [done|]. cbn [List.find].
  destruct (f a) eqn:Hfa.
  - intros [= ->]. by exists [], l.
  - intros Hfind. destruct (IH Hfind) as (before & after & -> & Hfx & Hbefore).
    exists (a :: before), after. split; [done|]. split; [done|].
    intros y [<-|Hy]; [done|]. by apply Hbefore.
Qed.

Lemma find_None_iff {A} (f : A → bool) (l : list A) :
  List.find f l = None ↔ ∀ x, In x l → f x = false.
Proof.
  split; [apply find_none|].
  induction l as [|a l IH]; [done|]. intros Hall. cbn [List.find].
  rewrite (Hall a) by (by left). apply IH. intros x Hx. apply Hall. by right.
Qed.

Lemma find_unique_key {A} (key : A → string) (l : list A) (x : A) :
  NoDup (key <$> l) → In x l →
  List.find (fun y => String.eqb (key y) (key x)) l = Some x.
Proof.
  induction l as [|a l IH]; [done|].
  intros Hnd Hin. rewrite fmap_cons in Hnd.
  inversion Hnd as [|? ? Hnotin Hnodup]; subst. destruct Hin as [->|Hx].
  - cbn [List.find]. by rewrite String.eqb_refl.
  - cbn [List.find]. destruct (String.eqb_spec (key a) (key x)) as [Heq|Hne].
    + exfalso. apply Hnotin. rewrite Heq.
      apply list_elem_of_fmap_2. by apply list_elem_of_In.
    + by apply IH.
Qed.

(** X4. [getTenant] and [getApp] return [null] exactly when no entry of the
    file has the id, and otherwise the first entry that has it. *)
Theorem lookup_by_id_first_match (files : Registry.t) (id : string) :
  (∀ tenants,
     Registry.tenants files = Some tenants →
     (getTenant files id = Some None ↔
      ∀ t, In t tenants → Tenant.id t ≠ id) ∧
     (∀ t, getTenant files id = Some (Some t) →
        ∃ before after,
          tenants = before ++ t :: after ∧ Tenant.id t = id ∧
          ∀ t', In t' before → Tenant.id t' ≠ id)) ∧
  (∀ apps,
     Registry.apps files = Some apps →
     (getApp files id = Some None ↔ ∀ a, In a apps → App.id a ≠ id) ∧
     (∀ a, getApp files id = Some (Some a) →
        ∃ before after,
          apps = before ++ a :: after ∧ App.id a = id ∧
          ∀ a', In a' before → App.id a' ≠ id)).
Proof.
  split.
  - intros tenants Hfile. unfold getTenant, getTenants. rewrite Hfile. cbn.
    split.
    + split.
      * intros [= Hnone] t Ht. rewrite find_None_iff in Hnone.
        by apply String.eqb_neq, Hnone.
      * intros Hall. f_equal. apply find_None_iff. intros t Ht.
        by apply String.eqb_neq, Hall.
    + intros t [= Hfind].
      destruct (find_first _ _ _ Hfind) as (before & after & -> & Hid & Hbefore).
      exists before, after. split; [done|].
      split; [by apply String.eqb_eq|].
      intros t' Ht'. by apply String.eqb_neq, Hbefore.
  - intros apps Hfile. unfold getApp. rewrite Hfile. cbn.
    split.
    + split.
      * intros [= Hnone] a Ha. rewrite find_None_iff in Hnone.
        by apply String.eqb_neq, Hnone.
      * intros Hall. f_equal. apply find_None_iff. intros a Ha.
        by apply String.eqb_neq, Hall.
    + intros a [= Hfind].
      destruct (find_first _ _ _ Hfind) as (before & after & -> & Hid & Hbefore).
      exists before, after. split; [done|].
      split; [by apply String.eqb_eq|].
      intros a' Ha'. by apply String.eqb_neq, Hbefore.
Qed.

Lemma filter_sublist {A} (f : A → bool) (l : list A) :
  sublist (List.filter f l) l.
Proof.
  induction l as [|a l IH]; [constructor|]. cbn [List.filter].
  destruct (f a); by constructor.
Qed.

(** X5. [getAppsByTenant] returns exactly the apps of the tenant, in the
    order of the file: an app is in the result iff it is in the file with
    that [tenantId], and the result is the file with the other entries
    dropped. *)
Theorem getAppsByTenant_exact (files : Registry.t) (apps : list App.t)
    (tenantId : string) :
  Registry.apps files = Some apps →
  ∃ result,
    getAppsByTenant files tenantId = Some result ∧
    (∀ app, In app result ↔ In app apps ∧ App.tenantId app = tenantId) ∧
    sublist result apps.
Proof.
  intros Hfile. unfold getAppsByTenant. rewrite Hfile. cbn.
  eexists. split; [reflexivity|]. split; [|apply filter_sublist].
  intros app. rewrite filter_In. by rewrite String.eqb_eq.
Qed.

Lemma getAppsByTenant_exact_witness :
  ∃ result,
    getAppsByTenant sampleFiles "tenant_1" = Some result ∧
    (∀ app,
       In app result ↔
       In app sampleApps ∧ App.tenantId app = "tenant_1"%string) ∧
    sublist result sampleApps.
Proof.
  apply (getAppsByTenant_exact sampleFiles sampleApps "tenant_1").
  reflexivity.
Defined.






(** ** More on the route handler *)

(** The handler in terms of the numbers its parameters stand for. *)
Lemma GET_by_numbers (dir : string → DataFile) (request : Request.t) :
  let start := paramOr (Request.startParam request) 0 in
  let size := paramOr (Request.sizeParam request) 50 in
  (Response.status (GET dir request) = 400 ∧
   (∃ msg, Response.body (GET dir request) = ErrorBody msg) ∧
   (start = None ∨ (∃ s, start = Some s ∧ s < 0) ∨
    size = None ∨ (∃ z, size = Some z ∧ (z ≤ 0 ∨ 1000 < z)))) ∨
  (∃ s z,
     start = Some s ∧ size = Some z ∧ 0 ≤ s ∧ 0 < z ≤ 1000 ∧
     GET dir request =
       match getAppDataRange dir (Request.appId request) s z with
       | Some result =>
           Response.mk 200
             (DataBody (RangeQueryResult.data result)
                       (RangeQueryResult.totalCount result))
       | None => Response.mk 500 (ErrorBody "Internal server error")
       end).
Proof.
  cbv zeta. unfold GET.
  destruct (paramOr (Request.startParam request) 0) as [s|];
    cbn [isNaN num_lt orb]; [|left; eauto 10].
  destruct (Z.ltb_spec s 0); [left; eauto 10|].
  destruct (paramOr (Request.sizeParam request) 50) as [z|];
    cbn [isNaN num_le num_gt orb]; [|left; eauto 10].
  destruct (Z.leb_spec z 0); cbn [orb]; [left; eauto 10|].
  destruct (Z.ltb_spec 1000 z); [left; eauto 12|].
  right. exists s, z. cbn [default from_option id].
  repeat split; [done|lia..|done].
Qed.

(** X8. An unknown app is not an error: when the app has no data file,
    every request that passes validation is answered with status 200,
    no records and [totalCount = 0]. *)
Theorem GET_unknown_app_is_empty (dir : string → DataFile)
    (request : Request.t) :
  dir (Request.appId request) = Absent →
  Response.status (GET dir request) ≠ 400 →
  GET dir request = Response.mk 200 (DataBody [] 0).
Proof.
  intros Hdir Hvalid.
  destruct (GET_by_numbers dir request) as [(H400 & _)|(s & z & _ & _ & _ & _ & ->)];
    [done|].
  unfold getAppDataRange. by rewrite Hdir.
Qed.

Lemma GET_unknown_app_is_empty_witness :
  GET (sampleDir 60) (Request.mk "app_9" (Some (str "1980")) (Some (str "53")))
    = Response.mk 200 (DataBody [] 0).
Proof.
  apply (GET_unknown_app_is_empty (sampleDir 60)
           (Request.mk "app_9" (Some (str "1980")) (Some (str "53"))));
    [reflexivity | by vm_compute].
Defined.

(** X9. The status and the body of an answer agree: the status is 200, 400
    or 500; the body is [{ data, totalCount }] exactly when the status is
    200 and [{ error }] otherwise.  500 is answered exactly when the
    parameters pass validation and the range query throws; it is never
    the answer for a missing file or for a file that holds an array of
    records. *)
Theorem GET_status_and_body (dir : string → DataFile) (request : Request.t) :
  let response := GET dir request in
  (Response.status response = 200 ∨ Response.status response = 400 ∨
   Response.status response = 500) ∧
  (Response.status response = 200 ↔
   ∃ data totalCount, Response.body response = DataBody data totalCount) ∧
  (Response.status response ≠ 200 ↔
   ∃ msg, Response.body response = ErrorBody msg) ∧
  (Response.status response = 500 ↔
   ∃ start size,
     paramOr (Request.startParam request) 0 = Some start ∧
     paramOr (Request.sizeParam request) 50 = Some size ∧
     0 ≤ start ∧ 0 < size ≤ 1000 ∧
     getAppDataRange dir (Request.appId request) start size = None) ∧
  (dir (Request.appId request) = Absent → Response.status response ≠ 500) ∧
  (∀ allData,
     dir (Request.appId request) = Records allData →
     Response.status response ≠ 500).
Proof.
  cbv zeta.
  destruct (GET_by_numbers dir request)
    as [(H400 & (msg & Hbody) & Hbad)|(s & z & Hs & Hz & Hs0 & Hzr & ->)].
  - rewrite H400, Hbody. repeat split; try done; eauto.
    + by intros (? & ? & ?).
    + intros (start & size & Hstart & Hsize & ? & ? & _).
      rewrite Hstart, Hsize in Hbad.
      destruct Hbad as [?|[(? & [= <-] & ?)|[?|(? & [= <-] & ?)]]];
        (done || lia).
  - assert (∀ start size,
              getAppDataRange dir (Request.appId request) start size = None ↔
              dir (Request.appId request) = Unreadable) as Hthrows.
    { intros start size. unfold getAppDataRange.
      by destruct (dir (Request.appId request)). }
    destruct (getAppDataRange dir (Request.appId request) s z) as [result|]
      eqn:Hresult; cbn [Response.status Response.body].
    + split; [by left|]. split; [split; [eauto|done]|].
      split; [split; [done|by intros (? & ?)]|].
      split; [|done]. split; [done|].
      intros (start & size & _ & _ & _ & _ & Hnone).
      apply Hthrows in Hnone. apply (Hthrows s z) in Hnone. congruence.
    + apply Hthrows in Hresult.
      split; [by right; right|]. split; [split; [done|by intros (? & ? & ?)]|].
      split; [split; [eauto|done]|].
      split; [split; [|done]|].
      * intros _. exists s, z. by rewrite Hthrows.
      * split; [congruence|]. intros allData. congruence.
Qed.

(** X10. The page size is capped: an answer that carries records carries at
    most as many as the [size] asked for (50 when [size] is missing), never
    more than 1000, and never more than [totalCount]. *)
Theorem GET_page_size_cap (dir : string → DataFile) (request : Request.t)
    (data : list DataRecord.t) (total : Z) :
  Response.body (GET dir request) = DataBody data total →
  ∃ size,
    paramOr (Request.sizeParam request) 50 = Some size ∧
    Z.of_nat (length data) ≤ size ∧ size ≤ 1000 ∧
    Z.of_nat (length data) ≤ total.
Proof.
  intros Hbody.
  destruct (GET_by_numbers dir request)
    as [(_ & (msg & Hmsg) & _)|(s & z & _ & Hz & Hs & Hzr & HGET)];
    [congruence|].
  rewrite HGET in Hbody. exists z. split; [done|].
  unfold getAppDataRange in Hbody.
  destruct (dir (Request.appId request)) as [| |allData]; cbn in Hbody;
    [|done|]; injection Hbody as <- <-.
  - cbn. lia.
  - rewrite slice_length by lia. lia.
Qed.

Lemma GET_page_size_cap_witness :
  ∃ size,
    paramOr (Some (str "53")) 50 = Some size ∧
    Z.of_nat (length (slice (sampleData 60) 40 (40 + 53))) ≤ size ∧
    size ≤ 1000 ∧
    Z.of_nat (length (slice (sampleData 60) 40 (40 + 53))) ≤ 60.
Proof.
  apply (GET_page_size_cap (sampleDir 60)
           (Request.mk "app_1" (Some (str "40")) (Some (str "53")))
           (slice (sampleData 60) 40 (40 + 53)) 60).
  reflexivity.
Defined.

(** The answer to the request the client sends for a valid window. *)
Lemma GET_requestFor (dir : string → DataFile) (appId : string) (s n : Z) :
  0 ≤ s → 0 < n ≤ 1000 →
  GET dir (requestFor appId (s, n)) =
    match getAppDataRange dir appId s n with
    | Some result =>
        Response.mk 200
          (DataBody (RangeQueryResult.data result)
                    (RangeQueryResult.totalCount result))
    | None => Response.mk 500 (ErrorBody "Internal server error")
    end.
Proof.
  intros Hs Hn.
  destruct (GET_by_numbers dir (requestFor appId (s, n)))
    as [(_ & _ & Hbad)|(s' & n' & Hs' & Hn' & _ & _ & ->)];
    cbn [requestFor Request.startParam Request.sizeParam Request.appId fst snd]
      in *;
    rewrite !paramOr_toString in *.
  - destruct Hbad as [?|[(? & [= <-] & ?)|[?|(? & [= <-] & ?)]]]; (done || lia).
  - by injection Hs' as <-; injection Hn' as <-.
Qed.

Lemma fetched_valid (dir : string → DataFile) (appId : string)
    (allData : list DataRecord.t) (s n : Z) :
  dir appId = Records allData →
  0 ≤ s → 0 < n ≤ 1000 →
  fetched dir appId (s, n)
    = DataBody (slice allData s (s + n)) (Z.of_nat (length allData)).
Proof.
  intros Hdir Hs Hn. unfold fetched. rewrite GET_requestFor by done.
  unfold getAppDataRange. by rewrite Hdir.
Qed.

(** X11. The numbers survive the URL: for safe integers (up to
    [Number.MAX_SAFE_INTEGER] in magnitude, where a number prints as its
    decimal digits), whatever the client writes into
    [?start=${start}&size=${size}], the handler reads back the same two
    numbers; so the request is refused with 400 exactly when [start < 0],
    [size ≤ 0] or [size > 1000], and is otherwise answered by the range
    query for that very [(start, size)]. *)
Theorem request_numbers_round_trip (dir : string → DataFile)
    (appId : string) (start size : Z) :
  safeInteger start → safeInteger size →
  let request := requestFor appId (start, size) in
  paramOr (Request.startParam request) 0 = Some start ∧
  paramOr (Request.sizeParam request) 50 = Some size ∧
  (Response.status (GET dir request) = 400 ↔
   start < 0 ∨ size ≤ 0 ∨ 1000 < size) ∧
  (0 ≤ start → 0 < size ≤ 1000 →
   GET dir request =
     match getAppDataRange dir appId start size with
     | Some result =>
         Response.mk 200
           (DataBody (RangeQueryResult.data result)
                     (RangeQueryResult.totalCount result))
     | None => Response.mk 500 (ErrorBody "Internal server error")
     end).
Proof.
  intros _ _. cbv zeta.
  cbn [requestFor Request.startParam Request.sizeParam fst snd].
  rewrite !paramOr_toString. split; [done|]. split; [done|].
  split; [|apply GET_requestFor].
  destruct (GET_by_numbers dir (requestFor appId (start, size)))
    as [(H400 & _ & Hbad)|(s' & n' & Hs' & Hn' & ? & ? & HGET)];
    cbn [requestFor Request.startParam Request.sizeParam Request.appId fst snd]
      in *;
    rewrite !paramOr_toString in *.
  - split; [|done]. intros _.
    destruct Hbad as [?|[(? & [= <-] & ?)|[?|(? & [= <-] & ?)]]];
      first [done | lia].
  - injection Hs' as <-; injection Hn' as <-. rewrite HGET.
    split; [|lia]. destruct (getAppDataRange dir appId start size); by cbn.
Qed.

Lemma request_numbers_round_trip_witness :
  let request := requestFor "app_1" (1980, 53) in
  paramOr (Request.startParam request) 0 = Some 1980 ∧
  paramOr (Request.sizeParam request) 50 = Some 53 ∧
  (Response.status (GET (sampleDir 3000) request) = 400 ↔
   1980 < 0 ∨ 53 ≤ 0 ∨ 1000 < 53) ∧
  (0 ≤ 1980 → 0 < 53 ≤ 1000 →
   GET (sampleDir 3000) request =
     match getAppDataRange (sampleDir 3000) "app_1" 1980 53 with
     | Some result =>
         Response.mk 200
           (DataBody (RangeQueryResult.data result)
                     (RangeQueryResult.totalCount result))
     | None => Response.mk 500 (ErrorBody "Internal server error")
     end).
Proof.
  apply (request_numbers_round_trip (sampleDir 3000) "app_1" 1980 53);
    unfold safeInteger, MAX_SAFE_INTEGER; lia.
Defined.

(** ** More on the fetch cycle *)

(** What the arrival of the metadata does to the log of requests. *)
Lemma step_MetaLoaded (st : State.t) (n : Z) :
  let st' := step st (MetaLoaded n) in
  let q := getQuery (State.queries st) (currentKey st) in
  totalCount st' = n ∧
  State.debouncedRange st' = State.debouncedRange st ∧
  State.requests st' = State.requests st ++
    (if negb (enabled st) && (0 <? n) && negb (isFetching q)
        && isStale q (State.now st)
     then [currentKey st] else []).
Proof.
  cbv zeta. unfold step. rewrite trackDefined_totalCount.
  destruct (trackDefined_fields (react st (MetaLoaded n)))
    as (_&_&_&->&_&_&->).
  cbn [react].
  set (st1 := State.mk _ (Some n) _ _ _ _ _ _).
  assert (enabled st1 = (0 <? n)) as Hen by reflexivity.
  assert (totalCount st1 = n) as Htot by reflexivity.
  assert (totalCount (fetchOptionally st1) = n) as Htot'
    by (unfold fetchOptionally; by destruct (_ && _ && _)).
  assert (State.debouncedRange (fetchOptionally st1) = State.debouncedRange st)
    as Hdeb' by (unfold fetchOptionally; by destruct (_ && _ && _)).
  rewrite Hen.
  destruct (enabled st); cbn [negb andb].
  { split; [done|]. split; [done|]. by rewrite app_nil_r. }
  destruct (0 <? n) eqn:Hn; cbn [andb].
  - split; [done|]. split; [done|].
    unfold fetchOptionally. rewrite Hen; rewrite ?Hn. cbn [andb].
    change (currentKey st1) with (currentKey st).
    change (State.queries st1) with (State.queries st).
    change (State.now st1) with (State.now st).
    destruct (negb _ && _); [done|]. by rewrite app_nil_r.
  - split; [done|]. split; [done|]. by rewrite app_nil_r.
Qed.

Lemma probe_total (dir : string → DataFile) (appId : string) :
  probedTotalCount (Response.body (GET dir (probeRequest appId))) =
    match dir appId with
    | Records allData => Z.of_nat (length allData)
    | _ => 0
    end.
Proof.
  unfold GET, probeRequest, getAppDataRange.
  cbn [Request.appId Request.startParam Request.sizeParam].
  change (paramOr (Some (str "0")) 0) with (Some 0).
  change (paramOr (Some (str "1")) 50) with (Some 1).
  cbn [isNaN num_lt num_le num_gt orb default from_option id Z.ltb Z.leb
       Z.compare Pos.compare Pos.compare_cont].
  by destruct (dir appId).
Qed.

(** X12. Mounting against a store: the metadata probe [?start=0&size=1]
    always passes validation, and the [totalCount] the component takes from
    it is the number of records of a readable data file and 0 when the
    file is missing or cannot be read.  With a positive [totalCount] the
    component shows the table and requests the default first page
    [(0, 50)], once; with [totalCount = 0] it shows "No data available" and
    requests nothing. *)
Theorem mount_probe (dir : string → DataFile) (appId : string) :
  let total :=
    match dir appId with
    | Records allData => Z.of_nat (length allData)
    | _ => 0
    end in
  let st := step mounted (probe dir appId) in
  Response.status (GET dir (probeRequest appId)) ≠ 400 ∧
  totalCount st = total ∧
  (0 < total → State.requests st = [(0, 50)] ∧ view st = TableView) ∧
  (total = 0 → State.requests st = [] ∧ view st = NoDataView).
Proof.
  cbv zeta. unfold probe. rewrite probe_total.
  set (total := match dir appId with Records allData => _ | _ => 0 end).
  destruct (step_MetaLoaded mounted total) as (Htot & _ & Hreq).
  split.
  { unfold GET, probeRequest, getAppDataRange.
    cbn [Request.appId Request.startParam Request.sizeParam].
    change (paramOr (Some (str "0")) 0) with (Some 0).
    change (paramOr (Some (str "1")) 50) with (Some 1).
    cbn [isNaN num_lt num_le num_gt orb default from_option id Z.ltb Z.leb
         Z.compare Pos.compare Pos.compare_cont].
    by destruct (dir appId). }
  split; [done|]. clearbody total.
  change (enabled mounted) with false in Hreq.
  change (getQuery (State.queries mounted) (currentKey mounted))
    with Query.initial in Hreq.
  change (currentKey mounted) with (0, 50) in Hreq.
  cbn [negb andb isFetching Query.fetching Query.initial isStale Query.data]
    in Hreq.
  split.
  - intros Hpos. destruct (Z.ltb_spec 0 total); [|lia]. split; [exact Hreq|].
    unfold view. rewrite Htot. case_decide; [lia|done].
  - intros ->. split; [exact Hreq|]. by vm_compute.
Qed.

(** ** More on the window calculator *)

(** X13. The window covers what is visible: with the visible rows inside
    the dataset, every visible row lies in [[start, start + size - 1]]; the
    window has at least as many rows as are visible and at most
    [2 * BUFFER_SIZE] more; and the buffer is cut only by the ends of the
    dataset (the window starts [BUFFER_SIZE] rows before the first visible
    row unless that is before row 0, and ends [BUFFER_SIZE] rows after the
    last one unless that is past the last record). *)
Theorem visibleRange_covers (virtualItems : list VirtualItem.t)
    (totalCount : Z) (f l : VirtualItem.t) :
  head virtualItems = Some f →
  list.last virtualItems = Some l →
  0 ≤ VirtualItem.index f →
  VirtualItem.index f ≤ VirtualItem.index l →
  VirtualItem.index l ≤ totalCount - 1 →
  let r := visibleRange virtualItems totalCount in
  let first := VirtualItem.index f in
  let last := VirtualItem.index l in
  (Range.start r ≤ first ∧ last ≤ Range.start r + Range.size r - 1) ∧
  (visibleCount virtualItems = last - first + 1 ∧
   visibleCount virtualItems ≤ Range.size r ∧
   Range.size r ≤ visibleCount virtualItems + 2 * BUFFER_SIZE) ∧
  (BUFFER_SIZE ≤ first → Range.start r = first - BUFFER_SIZE) ∧
  (first ≤ BUFFER_SIZE → Range.start r = 0) ∧
  (last + BUFFER_SIZE ≤ totalCount - 1 →
   Range.start r + Range.size r - 1 = last + BUFFER_SIZE) ∧
  (totalCount - 1 ≤ last + BUFFER_SIZE →
   Range.start r + Range.size r - 1 = totalCount - 1).
Proof.
  intros Hf Hl H0 Hfl Hlt.
  destruct (head_last_cons _ _ _ Hf Hl) as (rest & -> & <-).
  cbn [visibleRange visibleCount Range.start Range.size].
  unfold BUFFER_SIZE in *. repeat split; lia.
Qed.

Lemma visibleRange_covers_witness :
  let r := visibleRange (rows 2000 13) 50000 in
  (Range.start r ≤ 2000 ∧ 2012 ≤ Range.start r + Range.size r - 1) ∧
  (visibleCount (rows 2000 13) = 2012 - 2000 + 1 ∧
   visibleCount (rows 2000 13) ≤ Range.size r ∧
   Range.size r ≤ visibleCount (rows 2000 13) + 2 * BUFFER_SIZE) ∧
  (BUFFER_SIZE ≤ 2000 → Range.start r = 2000 - BUFFER_SIZE) ∧
  (2000 ≤ BUFFER_SIZE → Range.start r = 0) ∧
  (2012 + BUFFER_SIZE ≤ 50000 - 1 →
   Range.start r + Range.size r - 1 = 2012 + BUFFER_SIZE) ∧
  (50000 - 1 ≤ 2012 + BUFFER_SIZE →
   Range.start r + Range.size r - 1 = 50000 - 1).
Proof.
  apply (visibleRange_covers (rows 2000 13) 50000
    (VirtualItem.mk 2000 2000 100000 50) (VirtualItem.mk 2012 2012 100600 50));
    first [reflexivity | simpl; lia].
Defined.

(** X14. The window the component computes is one the store serves: with
    the visible rows inside the dataset, at most 960 of them, and a data
    file holding at least [totalCount] records, the request for the window
    passes validation and is answered by exactly [size] records, among
    them the record of every visible row, at the offset of that row in the
    window. *)
Theorem visible_window_is_served (dir : string → DataFile) (appId : string)
    (allData : list DataRecord.t) (virtualItems : list VirtualItem.t)
    (totalCount : Z) (f l : VirtualItem.t) :
  dir appId = Records allData →
  totalCount ≤ Z.of_nat (length allData) →
  head virtualItems = Some f →
  list.last virtualItems = Some l →
  0 ≤ VirtualItem.index f →
  VirtualItem.index f ≤ VirtualItem.index l →
  VirtualItem.index l ≤ totalCount - 1 →
  VirtualItem.index l - VirtualItem.index f + 1 ≤ 960 →
  let r := visibleRange virtualItems totalCount in
  ∃ data,
    fetched dir appId (queryKey r)
      = DataBody data (Z.of_nat (length allData)) ∧
    Z.of_nat (length data) = Range.size r ∧
    ∀ index record,
      VirtualItem.index f ≤ index ≤ VirtualItem.index l →
      allData !! Z.to_nat index = Some record →
      data !! Z.to_nat (index - Range.start r) = Some record.
Proof.
  intros Hdir Hstore Hf Hl H0 Hfl Hlt Hmany.
  destruct (head_last_cons _ _ _ Hf Hl) as (rest & -> & <-).
  cbv zeta. unfold queryKey.
  cbn [visibleRange Range.start Range.size]. unfold BUFFER_SIZE in *.
  set (s := Z.max 0 (VirtualItem.index f - 20)).
  set (e := Z.min (totalCount - 1) (VirtualItem.index (List.last rest f) + 20)).
  rewrite (fetched_valid dir appId allData) by (done || lia).
  eexists. split; [reflexivity|].
  split; [rewrite slice_length by lia; lia|].
  intros index record Hin Hrec.
  rewrite slice_lookup by lia. case_decide; [|lia].
  rewrite <- Hrec. f_equal. lia.
Qed.

Lemma visible_window_is_served_witness :
  let r := visibleRange (rows 20 13) 60 in
  ∃ data,
    fetched (sampleDir 60) "app_1" (queryKey r)
      = DataBody data (Z.of_nat (length (sampleData 60))) ∧
    Z.of_nat (length data) = Range.size r ∧
    ∀ index record,
      20 ≤ index ≤ 32 →
      sampleData 60 !! Z.to_nat index = Some record →
      data !! Z.to_nat (index - Range.start r) = Some record.
Proof.
  apply (visible_window_is_served (sampleDir 60) "app_1" (sampleData 60)
    (rows 20 13) 60
    (VirtualItem.mk 20 20 1000 50) (VirtualItem.mk 32 32 1600 50));
    first [reflexivity | by vm_compute | simpl; lia].
Defined.

(** ** Rows on the screen *)

(** X15. When the store's answer for the current window arrives, every row
    shows the record of its own index: for a valid window
    [(start, size)] over a readable data file, the rows from [start] up
    to [min(start + size, totalCount)] show the records the file holds at
    those indices, and every other row shows the skeleton. *)
Theorem rows_show_their_records (dir : string → DataFile) (appId : string)
    (allData : list DataRecord.t) (st : State.t) :
  dir appId = Records allData →
  isFetching (getQuery (State.queries st) (currentKey st)) = true →
  let start := Range.start (State.debouncedRange st) in
  let size := Range.size (State.debouncedRange st) in
  0 ≤ start → 0 < size ≤ 1000 →
  let st' :=
    step st (Resolve (currentKey st) (fetched dir appId (currentKey st))) in
  ∀ index,
    renderRow st' index =
      if decide (start ≤ index
                 < Z.min (start + size) (Z.of_nat (length allData)))
      then match allData !! Z.to_nat index with
           | Some record => DataRow record
           | None => Skeleton
           end
      else Skeleton.
Proof.
  intros Hdir Hflight start size Hs Hz st' index. subst st'.
  unfold currentKey at 2, queryKey. fold start size.
  rewrite (fetched_valid dir appId allData) by done.
  destruct (success_replaces_dataMap st (slice allData start (start + size))
              (Z.of_nat (length allData)) Hflight) as (Hmap & _).
  unfold renderRow. rewrite Hmap. fold start.
  rewrite mapRecords_lookup, slice_length by lia.
  case_decide as Hin; case_decide as Hin'; try lia; [|done].
  rewrite slice_lookup by lia. case_decide; [|lia].
  by replace (start + Z.of_nat (Z.to_nat (index - start))) with index by lia.
Qed.

Lemma rows_show_their_records_witness :
  let st := run mounted scrolledAway in
  let st' :=
    step st (Resolve (currentKey st)
                     (fetched (sampleDir 3000) "app_1" (currentKey st))) in
  renderRow st' 1980 = DataRow (sampleRecord 1981) ∧
  renderRow st' 2032 = DataRow (sampleRecord 2033) ∧
  renderRow st' 2033 = Skeleton ∧
  renderRow st' 0 = Skeleton.
Proof.
  cbv zeta.
  pose proof (rows_show_their_records (sampleDir 3000) "app_1"
                (sampleData 3000) (run mounted scrolledAway)) as H.
  cbv zeta in H.
  assert (sampleDir 3000 "app_1" = Records (sampleData 3000)) as Hdir
    by reflexivity.
  assert (isFetching (getQuery (State.queries (run mounted scrolledAway))
                               (currentKey (run mounted scrolledAway))) = true)
    as Hflight by (by vm_compute).
  assert (0 ≤ Range.start (State.debouncedRange (run mounted scrolledAway)))
    as Hstart by (by vm_compute).
  assert (0 < Range.size (State.debouncedRange (run mounted scrolledAway))
          ≤ 1000) as Hsize by (by vm_compute).
  specialize (H Hdir Hflight Hstart Hsize).
  repeat split; rewrite H; by vm_compute.
Defined.

(** ** When requests are made *)

Lemma fetchOptionally_cases (st : State.t) :
  let st' := fetchOptionally st in
  let q := getQuery (State.queries st) (currentKey st) in
  State.now st' = State.now st ∧
  State.metaData st' = State.metaData st ∧
  State.debouncedRange st' = State.debouncedRange st ∧
  (∀ k, Query.data (getQuery (State.queries st') k)
        = Query.data (getQuery (State.queries st) k)) ∧
  (State.requests st' = State.requests st ∨
   State.requests st' = State.requests st ++ [currentKey st] ∧
   enabled st = true ∧ isFetching q = false ∧
   isStale q (State.now st) = true ∧
   isFetching (getQuery (State.queries st') (currentKey st)) = true).
Proof.
  cbv zeta. unfold fetchOptionally.
  destruct (enabled st) eqn:Hen; cbn [andb]; [|by auto 10].
  destruct (isFetching _) eqn:Hfl; cbn [negb andb]; [by auto 10|].
  destruct (isStale _ _) eqn:Hst; [|by auto 10].
  cbn [State.now State.metaData State.debouncedRange State.queries
       State.requests].
  split; [done|]. split; [done|]. split; [done|].
  split; [intros k; by apply getQuery_insert_data|].
  right. by rewrite getQuery_insert_eq.
Qed.

(** X16. Which reactions of the component start a fetch of the data
    query (a fetch is listed once, however often the library attempts
    it).  A scroll starts none: it only restarts the debounce timer.  The
    settlement of a fetch, its response or its final failure, starts
    none.  The debounce timer starts one exactly when it fires with
    another [(start, size)] than the range shown, [totalCount > 0], no
    fetch for that range is in flight and no result for it is younger
    than [staleTime]; the fetch is for the range the timer sets.  The
    arrival of the metadata starts one exactly when it turns [enabled]
    from false to true and the current range is not in flight and has no
    result younger than [staleTime]; the fetch is for the current
    range. *)
Theorem request_policy (st : State.t) :
  (∀ items,
     State.requests (step st (Scroll items)) = State.requests st) ∧
  (∀ k body,
     State.requests (step st (Resolve k body)) = State.requests st) ∧
  (∀ k, State.requests (step st (Reject k)) = State.requests st) ∧
  (∀ d,
     State.requests (step st (Elapse d)) = State.requests st ++
       match State.timer st with
       | Some (due, r) =>
           let q := getQuery (State.queries st) (queryKey r) in
           if (due <=? State.now st + d)%N
              && bool_decide (queryKey r ≠ currentKey st) && enabled st
              && negb (isFetching q) && isStale q (State.now st + d)
           then [queryKey r] else []
       | None => []
       end) ∧
  (∀ n,
     let q := getQuery (State.queries st) (currentKey st) in
     State.requests (step st (MetaLoaded n)) = State.requests st ++
       (if negb (enabled st) && (0 <? n) && negb (isFetching q)
           && isStale q (State.now st)
        then [currentKey st] else [])).
Proof.
  assert (∀ ev, State.requests (step st ev) = State.requests (react st ev))
    as Hstep.
  { intros ev. unfold step.
    by destruct (trackDefined_fields (react st ev)) as (_&_&_&_&_&_&->). }
  split; [intros items; by rewrite Hstep|].
  split; [intros k body; rewrite Hstep; cbn [react];
          by destruct (isFetching _)|].
  split; [intros k; rewrite Hstep; cbn [react]; by destruct (isFetching _)|].
  split.
  - intros d. destruct (State.timer st) as [[due r]|] eqn:Htimer.
    + destruct (N.leb_spec due (State.now st + d)) as [Hdue|Hearly].
      * destruct (step_Elapse_fire st due r d Htimer Hdue)
          as (_ & _ & _ & _ & ->).
        cbv zeta. by rewrite !andb_true_l.
      * rewrite Hstep. cbn [react]. rewrite Htimer.
        destruct (N.leb_spec due (State.now st + d)); [lia|].
        cbn. by rewrite app_nil_r.
    + rewrite Hstep. cbn [react]. rewrite Htimer. cbn. by rewrite app_nil_r.
  - intros n. by destruct (step_MetaLoaded st n) as (_ & _ & ->).
Qed.

Lemma unused_step (st : State.t) (ev : Event) :
  reportsNoRows ev → unused st → unused (step st ev).
Proof.
  intros Hev (Htot & Hreq & Hq). unfold step, unused.
  rewrite trackDefined_totalCount.
  destruct (trackDefined_fields (react st ev)) as (_&_&_&_&_&->&->).
  assert (enabled st = false) as Hen
    by (unfold enabled; destruct (Z.ltb_spec 0 (totalCount st)); [lia|done]).
  assert (∀ s, totalCount s ≤ 0 → fetchOptionally s = s) as Hnofetch.
  { intros s Hs. unfold fetchOptionally.
    assert (enabled s = false) as ->
      by (unfold enabled; destruct (Z.ltb_spec 0 (totalCount s)); [lia|done]).
    done. }
  destruct ev as [d|n|items|k body|k]; cbn [react].
  - destruct (State.timer st) as [[due r]|]; [|done].
    destruct (due <=? State.now st + d)%N; [|done].
    destruct (decide _); [done|]. by rewrite Hnofetch.
  - cbn in Hev. rewrite Hen. cbn [negb andb].
    match goal with
    | |- context [if enabled ?s then _ else _] =>
        assert (totalCount s = n) as Hn by reflexivity;
        assert (enabled s = false) as ->
          by (unfold enabled; rewrite Hn;
              destruct (Z.ltb_spec 0 n); [lia|done])
    end.
    by rewrite Hn.
  - done.
  - rewrite Hq. by change (getQuery ∅ k) with Query.initial.
  - rewrite Hq. by change (getQuery ∅ k) with Query.initial.
Qed.

(** X17. Until the metadata reports a positive [totalCount] the data query
    is not used: whatever scrolls, timers and settlements occur, no
    request is made, nothing is cached and [dataMap] is empty; with
    [totalCount = 0] the component shows "No data available", never the
    spinner and never the table. *)
Theorem no_request_without_rows (history : list Event) :
  Forall reportsNoRows history →
  let st := run mounted history in
  State.requests st = [] ∧
  State.queries st = ∅ ∧
  dataMap st = ∅ ∧
  (∀ index, renderRow st index = Skeleton) ∧
  (totalCount st = 0 → view st = NoDataView).
Proof.
  intros Hhistory st.
  assert (unused st) as (Htot & Hreq & Hq).
  { subst st. revert Hhistory.
    assert (unused mounted) as Hinit by (by repeat split).
    revert Hinit. generalize mounted as s0.
    induction history as [|ev history IH]; intros s0 Hinit Hhistory; [done|].
    apply Forall_cons_1 in Hhistory as [Hev Hhistory].
    apply IH; [|done]. by apply unused_step. }
  assert (queryData st = None) as Hdata.
  { unfold queryData. rewrite Hq.
    change (getQuery ∅ (currentKey st)) with Query.initial.
    cbn [Query.data Query.initial Query.status].
    by destruct (State.lastDefined st). }
  assert (dataMap st = ∅) as Hmap by (unfold dataMap; by rewrite Hdata).
  split; [done|]. split; [done|]. split; [done|].
  split; [intros index; by apply renderRow_empty|].
  intros Hzero. unfold view. case_decide; [|done].
  unfold isLoading. rewrite Hq.
  by change (getQuery ∅ (currentKey st)) with Query.initial.
Qed.

Lemma no_request_without_rows_witness :
  let st :=
    run mounted [MetaLoaded 0; Scroll (rows 0 18); Elapse 300%N;
                 Resolve (0, 50) (DataBody [] 0)] in
  State.requests st = [] ∧
  State.queries st = ∅ ∧
  dataMap st = ∅ ∧
  (∀ index, renderRow st index = Skeleton) ∧
  (totalCount st = 0 → view st = NoDataView).
Proof.
  apply (no_request_without_rows
           [MetaLoaded 0; Scroll (rows 0 18); Elapse 300%N;
            Resolve (0, 50) (DataBody [] 0)]).
  repeat constructor. cbn. lia.
Defined.

(** ** The debounce and the screen *)

Lemma debounceConsistent_fetchOptionally (st : State.t) :
  debounceConsistent st → debounceConsistent (fetchOptionally st).
Proof. unfold fetchOptionally. by destruct (_ && _ && _). Qed.

Lemma debounceConsistent_trackDefined (st : State.t) :
  debounceConsistent st → debounceConsistent (trackDefined st).
Proof. unfold trackDefined. by destruct (Query.data _). Qed.

Lemma debounceConsistent_step (st : State.t) (ev : Event) :
  debounceConsistent st → debounceConsistent (step st ev).
Proof.
  intros Hinv. apply debounceConsistent_trackDefined.
  unfold debounceConsistent in Hinv. cbv zeta in Hinv.
  destruct ev as [d|n|items|k body|k]; cbn [react].
  - destruct (State.timer st) as [[due r]|] eqn:Htimer.
    + destruct Hinv as [-> Hdue].
      destruct (due <=? State.now st + d)%N.
      * destruct (decide _); [done|].
        by apply debounceConsistent_fetchOptionally.
      * unfold debounceConsistent. cbn [State.timer State.now].
        rewrite ?Htimer. split; [done|]. lia.
    + unfold debounceConsistent. cbn [State.timer]. by rewrite ?Htimer.
  - match goal with
    | |- debounceConsistent (if _ then fetchOptionally ?s else _) =>
        assert (debounceConsistent s) as Hinv'
    end.
    { unfold debounceConsistent. cbn [State.timer State.now].
      change (totalCount (State.mk _ (Some n) _ _ _ _ _ _)) with n.
      cbn [State.virtualItems State.debouncedRange].
      case_decide as Hn.
      - rewrite Hn. by destruct (State.timer st) as [[due r]|].
      - unfold restartTimer. split; [done|]. lia. }
    destruct (negb (enabled st) && _); [|done].
    by apply debounceConsistent_fetchOptionally.
  - unfold debounceConsistent, restartTimer. cbn. split; [done|]. lia.
  - by destruct (isFetching _).
  - by destruct (isFetching _).
Qed.

(** X18. The debounce never loses track of the screen.  In every state the
    mounted component reaches, either a timer is pending, due within
    300 ms and carrying the window of the rows now visible, or no timer is
    pending and [debouncedRange] is that window already: the range being
    fetched lags the visible one by at most one debounce delay. *)
Theorem debounce_tracks_screen (history : list Event) :
  let st := run mounted history in
  let visible := visibleRange (State.virtualItems st) (totalCount st) in
  (∀ due r,
     State.timer st = Some (due, r) →
     r = visible ∧ (due ≤ State.now st + DEBOUNCE_MS)%N) ∧
  (State.timer st = None → State.debouncedRange st = visible).
Proof.
  cbv zeta.
  assert (debounceConsistent (run mounted history)) as Hinv.
  { assert (debounceConsistent mounted) as Hinit by (by split).
    revert Hinit. generalize mounted as s0.
    induction history as [|ev history IH]; intros s0 Hinit; [done|].
    apply IH. by apply debounceConsistent_step. }
  unfold debounceConsistent in Hinv. cbv zeta in Hinv.
  destruct (State.timer (run mounted history)) as [[due r]|].
  - split; [|done]. by intros ? ? [= <- <-].
  - split; [done|]. auto.
Qed.

(** Letting time pass changes no cached data. *)
Lemma step_Elapse_data (st : State.t) (d : N) (k : Z * Z) :
  Query.data (getQuery (State.queries (step st (Elapse d))) k)
    = Query.data (getQuery (State.queries st) k).
Proof.
  unfold step.
  destruct (trackDefined_fields (react st (Elapse d))) as (_&_&_&_&_&->&_).
  cbn [react].
  destruct (State.timer st) as [[due r]|]; [|done].
  destruct (due <=? State.now st + d)%N; [|done].
  destruct (decide _); [done|].
  match goal with
  | |- context [fetchOptionally ?s] =>
      destruct (fetchOptionally_cases s) as (_ & _ & _ & Hdata & _)
  end.
  by rewrite Hdata.
Qed.

(** X19. Scrolling back to a window whose answer is cached: when the
    debounce timer fires for a range that has a cached data body, which
    arrived less than [gcTime] before (so that the library still keeps
    it), the rows of that window are shown at once, each record under the
    index of its own window; no request is made while the cached answer is
    younger than [staleTime], and once it is older the window is requested
    again (if enabled, not the range already shown and not in flight)
    while the cached rows stay on screen. *)
Theorem cached_window_shown_at_once (st : State.t) (due : N) (r : Range.t)
    (d : N) (q : Query.t) (data : list DataRecord.t) (count : Z) :
  State.timer st = Some (due, r) →
  (due ≤ State.now st + d)%N →
  State.queries st !! queryKey r = Some q →
  Query.data q = Some (DataBody data count) →
  (State.now st + d < Query.dataUpdatedAt q + gcTime)%N →
  let st' := step st (Elapse d) in
  State.debouncedRange st' = r ∧
  dataMap st' = mapRecords (Range.start r) data ∧
  (∀ i : nat, dataMap st' !! (Range.start r + Z.of_nat i) = data !! i) ∧
  ((State.now st + d < Query.dataUpdatedAt q + staleTime)%N →
   State.requests st' = State.requests st) ∧
  ((Query.dataUpdatedAt q + staleTime ≤ State.now st + d)%N →
   queryKey r ≠ currentKey st → enabled st = true → isFetching q = false →
   State.requests st' = State.requests st ++ [queryKey r]).
Proof.
  intros Htimer Hdue Hq Hdata _. cbv zeta.
  destruct (step_Elapse_fire st due r d Htimer Hdue)
    as (_ & Hdeb & _ & _ & Hreq).
  cbv zeta in Hreq.
  assert (getQuery (State.queries st) (queryKey r) = q) as Hget
    by (unfold getQuery; by rewrite Hq).
  rewrite Hget in Hreq.
  assert (dataMap (step st (Elapse d)) = mapRecords (Range.start r) data)
    as Hmap.
  { unfold dataMap, queryData, currentKey.
    rewrite Hdeb, step_Elapse_data, Hget, Hdata. done. }
  split; [done|]. split; [done|].
  split; [intros i; rewrite Hmap; apply mapRecords_lookup_offset|].
  unfold isStale in Hreq. rewrite Hdata in Hreq.
  split.
  - intros Hfresh. rewrite Hreq.
    destruct (N.leb_spec (Query.dataUpdatedAt q + staleTime) (State.now st + d));
      [lia|].
    rewrite !andb_false_r. by rewrite app_nil_r.
  - intros Hstale Hne Hen Hfl. rewrite Hreq, Hen, Hfl.
    rewrite bool_decide_eq_true_2 by done.
    by destruct (N.leb_spec (Query.dataUpdatedAt q + staleTime)
                            (State.now st + d)); [|lia].
Qed.

Lemma cached_window_shown_at_once_witness :
  let st := run mounted scrolledBack in
  let q := getQuery (State.queries st) (0, 50) in
  let data := take 50 (sampleData 3000) in
  let st' := step st (Elapse 300%N) in
  State.debouncedRange st' = Range.mk 0 50 ∧
  dataMap st' = mapRecords (Range.start (Range.mk 0 50)) data ∧
  (∀ i : nat,
     dataMap st' !! (Range.start (Range.mk 0 50) + Z.of_nat i) = data !! i) ∧
  ((State.now st + 300 < Query.dataUpdatedAt q + staleTime)%N →
   State.requests st' = State.requests st) ∧
  ((Query.dataUpdatedAt q + staleTime ≤ State.now st + 300)%N →
   queryKey (Range.mk 0 50) ≠ currentKey st → enabled st = true →
   isFetching q = false →
   State.requests st' = State.requests st ++ [queryKey (Range.mk 0 50)]).
Proof.
  apply (cached_window_shown_at_once (run mounted scrolledBack) 600%N
           (Range.mk 0 50) 300%N
           (getQuery (State.queries (run mounted scrolledBack)) (0, 50))
           (take 50 (sampleData 3000)) 3000);
    by vm_compute.
Defined.

(** ** The stats bar *)

(** X20. The "Viewing: a - b" figures of the stats bar: with the visible
    rows inside the dataset, [a] and [b] are the one-based first and last
    row of the window, so [1 ≤ a], [b ≤ totalCount], every visible row lies
    between them, and [b - a + 1] is the size of the window. *)
Theorem viewing_bounds (st : State.t) (f l : VirtualItem.t) :
  head (State.virtualItems st) = Some f →
  list.last (State.virtualItems st) = Some l →
  0 ≤ VirtualItem.index f →
  VirtualItem.index f ≤ VirtualItem.index l →
  VirtualItem.index l ≤ totalCount st - 1 →
  let a := (viewing st).1 in
  let b := (viewing st).2 in
  let window := visibleRange (State.virtualItems st) (totalCount st) in
  a = Range.start window + 1 ∧
  b = Range.start window + Range.size window ∧
  1 ≤ a ∧ a ≤ VirtualItem.index f + 1 ∧
  VirtualItem.index l + 1 ≤ b ∧ b ≤ totalCount st ∧
  b - a + 1 = Range.size window.
Proof.
  intros Hf Hl H0 Hfl Hlt. cbv zeta. unfold viewing. cbn [fst snd].
  destruct (head_last_cons _ _ _ Hf Hl) as (rest & -> & <-).
  cbn [visibleRange Range.start Range.size]. unfold BUFFER_SIZE. lia.
Qed.

Lemma viewing_bounds_witness :
  let st := run mounted scrolledAway in
  let a := (viewing st).1 in
  let b := (viewing st).2 in
  let window := visibleRange (State.virtualItems st) (totalCount st) in
  a = Range.start window + 1 ∧
  b = Range.start window + Range.size window ∧
  1 ≤ a ∧ a ≤ 2000 + 1 ∧
  2012 + 1 ≤ b ∧ b ≤ totalCount st ∧
  b - a + 1 = Range.size window.
Proof.
  apply (viewing_bounds (run mounted scrolledAway)
    (VirtualItem.mk 2000 2000 100000 50) (VirtualItem.mk 2012 2012 100600 50));
    first [by vm_compute | simpl; lia].
Defined.

(** ** Lenient parsing of the query parameters *)

Lemma parseDigits_stops (s : list N) (acc : N) (seen : bool) (c : N)
    (rest : list N) :
  Forall (fun u => isDigit u = true) s →
  isDigit c = false →
  parseDigits (s ++ c :: rest) acc seen = parseDigits s acc seen.
Proof.
  intros Hs Hc. revert acc seen.
  induction Hs as [|u s Hu Hs IH]; intros acc seen.
  - cbn [app parseDigits]. by rewrite Hc.
  - cbn [app parseDigits]. rewrite Hu. apply IH.
Qed.

Lemma uint_units_digits (d : Decimal.uint) :
  Forall (fun u => isDigit u = true) (uint_units d).
Proof. induction d; cbn [uint_units]; by constructor. Qed.

Lemma parseInt_digit_first (u : N) (s : list N) :
  isDigit u = true →
  parseInt (u :: s) = Z.of_N <$> parseDigits (u :: s) 0%N false.
Proof.
  intros Hu. unfold isDigit in Hu.
  apply andb_true_iff in Hu as [Hlo%N.leb_le Hhi%N.leb_le].
  assert (u = 48 ∨ u = 49 ∨ u = 50 ∨ u = 51 ∨ u = 52 ∨ u = 53 ∨ u = 54 ∨
          u = 55 ∨ u = 56 ∨ u = 57)%N as Hcases by lia.
  repeat (destruct Hcases as [->|Hcases]; [reflexivity|]).
  by subst u.
Qed.

Lemma uint_units_first (d : Decimal.uint) :
  d ≠ Decimal.Nil →
  ∃ u s, uint_units d = u :: s ∧ isDigit u = true.
Proof. destruct d; [done | intros _; eexists _, _; by split ..]. Qed.

Lemma parseInt_toString_stops (n : Z) (c : N) (rest : list N) :
  isDigit c = false →
  parseInt (Number_toString n ++ c :: rest) = Some n.
Proof.
  intros Hc. rewrite <- (parseInt_toString n).
  assert (∀ d, d ≠ Decimal.Nil →
            parseInt (uint_units d ++ c :: rest) = parseInt (uint_units d))
    as Hplus.
  { intros d Hd. pose proof (uint_units_digits d) as Hdigits.
    destruct (uint_units_first d Hd) as (u & s & Heq & Hu).
    rewrite Heq in *. cbn [app].
    rewrite !parseInt_digit_first by done. f_equal.
    by apply (parseDigits_stops (u :: s)). }
  assert (∀ d, parseInt (45%N :: uint_units d ++ c :: rest)
               = parseInt (45%N :: uint_units d)) as Hminus.
  { intros d. unfold parseInt. cbn [trimStart].
    change (isStrWhiteSpaceChar 45) with false. cbn iota. f_equal.
    apply parseDigits_stops; [apply uint_units_digits | done]. }
  unfold Number_toString. destruct n as [|p|p]; cbn [Z.to_int].
  - by apply Hplus.
  - apply Hplus, DecimalPos.Unsigned.to_uint_nonnil.
  - apply Hminus.
Qed.

(** X21. Validation reads numbers leniently: text after the digits of a
    parameter is ignored.  A request whose [start] and [size] are the
    decimal numerals of two integers, each followed by any text that begins
    with a non-digit (as in [size=50px]), is answered exactly like the
    request with the bare numerals. *)
Theorem GET_ignores_trailing_text (dir : string → DataFile) (appId : string)
    (start size : Z) (c1 c2 : N) (junk1 junk2 : list N) :
  isDigit c1 = false →
  isDigit c2 = false →
  GET dir (Request.mk appId
             (Some (Number_toString start ++ c1 :: junk1))
             (Some (Number_toString size ++ c2 :: junk2)))
    = GET dir (requestFor appId (start, size)).
Proof.
  intros Hc1 Hc2. unfold GET, requestFor.
  cbn [Request.appId Request.startParam Request.sizeParam fst snd].
  rewrite !paramOr_toString.
  assert (∀ n c junk dflt, isDigit c = false →
            paramOr (Some (Number_toString n ++ c :: junk)) dflt = Some n)
    as Hparam.
  { intros n c junk dflt Hc. pose proof (parseInt_toString_stops n c junk Hc) as H.
    unfold paramOr. by destruct (Number_toString n ++ c :: junk). }
  by rewrite !Hparam.
Qed.

Lemma GET_ignores_trailing_text_witness :
  GET (sampleDir 60)
      (Request.mk "app_1" (Some (Number_toString 40 ++ 32%N :: str "rows"))
                          (Some (Number_toString 53 ++ 112%N :: str "x")))
    = GET (sampleDir 60) (requestFor "app_1" (40, 53)).
Proof.
  apply (GET_ignores_trailing_text (sampleDir 60) "app_1" 40 53 32%N 112%N
           (str "rows") (str "x")); reflexivity.
Defined.

(** ** The seed script *)

Lemma Number_toString_small (n : Z) :
  Forall (fun u => (u < 256)%N) (Number_toString n).
Proof.
  assert (∀ d, Forall (fun u => (u < 256)%N) (uint_units d)) as Hunits.
  { intros d. induction d; cbn [uint_units]; constructor; (lia || done). }
  unfold Number_toString. destruct (Z.to_int n); [done|].
  constructor; [lia|done].
Qed.

Lemma str_decimal (n : Z) : str (decimal n) = Number_toString n.
Proof.
  unfold str, decimal. rewrite list_ascii_of_string_of_list_ascii.
  induction (Number_toString_small n) as [|u us Hu _ IH]; [done|].
  cbn [fmap list_fmap]. rewrite N_ascii_embedding by done. f_equal. exact IH.
Qed.

(** Different numbers are spliced in as different strings. *)
Lemma decimal_inj (a b : Z) : decimal a = decimal b → a = b.
Proof.
  intros H. apply (f_equal str) in H. rewrite !str_decimal in H.
  apply (f_equal parseInt) in H. rewrite !parseInt_toString in H.
  by injection H.
Qed.

Lemma seedApps_inner (faker : Faker.t) (tenant : Tenant.t)
    (apps : list App.t) (appCounter : Z) :
  foldl (fun '(apps, appCounter) (j : Z) =>
           (apps ++ [seedApp faker appCounter tenant], appCounter + 1))
        (apps, appCounter) (seqZ 1 NUM_APPS_PER_TENANT)
    = (apps ++ appsOfTenant faker appCounter tenant,
       appCounter + NUM_APPS_PER_TENANT).
Proof.
  change (seqZ 1 NUM_APPS_PER_TENANT) with [1; 2; 3]. cbn [foldl].
  unfold appsOfTenant, NUM_APPS_PER_TENANT.
  f_equal; [|lia]. rewrite <- !app_assoc. cbn [app].
  by replace (appCounter + 1 + 1) with (appCounter + 2) by lia.
Qed.

(** The nested loops push, tenant after tenant, three apps numbered
    consecutively. *)
Lemma seedApps_appsFrom (faker : Faker.t) (tenants : list Tenant.t) :
  seedApps faker tenants = appsFrom faker 1 tenants.
Proof.
  unfold seedApps.
  assert (∀ apps c,
    foldl
      (fun state tenant =>
         foldl (fun '(apps, appCounter) (j : Z) =>
                  (apps ++ [seedApp faker appCounter tenant], appCounter + 1))
               state (seqZ 1 NUM_APPS_PER_TENANT))
      (apps, c) tenants
    = (apps ++ appsFrom faker c tenants,
       c + NUM_APPS_PER_TENANT * Z.of_nat (length tenants))) as Hloop.
  { induction tenants as [|tenant rest IH]; intros apps c.
    - cbn. rewrite app_nil_r. f_equal. lia.
    - cbn [foldl appsFrom]. rewrite seedApps_inner, IH.
      rewrite <- app_assoc. f_equal. cbn [length]. lia. }
  by rewrite Hloop.
Qed.


Lemma tenant_id_inj (a b : Z) :
  ("tenant_" ++ decimal a)%string = ("tenant_" ++ decimal b)%string → a = b.
Proof. cbn. intros [= H]. by apply decimal_inj. Qed.

Lemma app_id_inj (a b : Z) :
  ("app_" ++ decimal a)%string = ("app_" ++ decimal b)%string → a = b.
Proof. cbn. intros [= H]. by apply decimal_inj. Qed.

Lemma seedTenants_ids (faker : Faker.t) :
  Tenant.id <$> seedTenants faker
    = (fun i => ("tenant_" ++ decimal i)%string) <$> seqZ 1 NUM_TENANTS.
Proof. unfold seedTenants. by rewrite <- list_fmap_compose. Qed.

Lemma seedTenants_NoDup (faker : Faker.t) :
  NoDup (Tenant.id <$> seedTenants faker).
Proof.
  rewrite seedTenants_ids. apply NoDup_fmap_2_strong; [|apply NoDup_seqZ].
  intros a b _ _. apply tenant_id_inj.
Qed.

Lemma appsFrom_ids (faker : Faker.t) (tenants : list Tenant.t) (c : Z) :
  App.id <$> appsFrom faker c tenants
    = (fun k => ("app_" ++ decimal k)%string)
        <$> seqZ c (NUM_APPS_PER_TENANT * Z.of_nat (length tenants)).
Proof.
  revert c. induction tenants as [|tenant rest IH]; intros c; [done|].
  cbn [appsFrom length]. rewrite fmap_app, IH. unfold NUM_APPS_PER_TENANT.
  replace (3 * Z.of_nat (S (length rest)))
    with (3 + 3 * Z.of_nat (length rest)) by lia.
  rewrite (seqZ_app c 3) by lia. rewrite fmap_app. f_equal.
  rewrite !seqZ_cons by lia. rewrite seqZ_nil by lia. cbn.
  unfold Z.succ. by replace (c + 1 + 1) with (c + 2) by lia.
Qed.

Lemma appsFrom_NoDup (faker : Faker.t) (tenants : list Tenant.t) (c : Z) :
  NoDup (App.id <$> appsFrom faker c tenants).
Proof.
  rewrite appsFrom_ids. apply NoDup_fmap_2_strong; [|apply NoDup_seqZ].
  intros a b _ _. apply app_id_inj.
Qed.

Lemma appsFrom_tenantId (faker : Faker.t) (tenants : list Tenant.t) (c : Z)
    (app : App.t) :
  In app (appsFrom faker c tenants) →
  ∃ tenant, In tenant tenants ∧ App.tenantId app = Tenant.id tenant.
Proof.
  revert c. induction tenants as [|tenant rest IH]; intros c; [done|].
  cbn [appsFrom]. rewrite in_app_iff. intros [Hhere|Hrest].
  - exists tenant. split; [by left|].
    destruct Hhere as [<-|[<-|[<-|[]]]]; reflexivity.
  - destruct (IH _ Hrest) as (t & Ht & Heq). exists t. split; [by right|done].
Qed.

(** Of the apps pushed for a list of tenants with distinct ids, exactly
    [NUM_APPS_PER_TENANT] carry the id of each tenant. *)
Lemma appsFrom_filter_length (faker : Faker.t) (tenants : list Tenant.t)
    (c : Z) (t : Tenant.t) :
  NoDup (Tenant.id <$> tenants) →
  In t tenants →
  Z.of_nat (length
    (List.filter (fun app => String.eqb (App.tenantId app) (Tenant.id t))
                 (appsFrom faker c tenants)))
    = NUM_APPS_PER_TENANT.
Proof.
  assert (∀ rest c',
            Tenant.id t ∉ Tenant.id <$> rest →
            List.filter
              (fun app => String.eqb (App.tenantId app) (Tenant.id t))
              (appsFrom faker c' rest) = []) as Hnone.
  { intros rest c' Hnotin.
    destruct (List.filter _ _) as [|app others] eqn:Hfilter; [done|].
    assert (In app (app :: others)) as Hin by (by left).
    rewrite <- Hfilter in Hin. apply filter_In in Hin as [Hin Heq].
    apply String.eqb_eq in Heq.
    destruct (appsFrom_tenantId _ _ _ _ Hin) as (t' & Ht' & Hid).
    exfalso. apply Hnotin. rewrite <- Heq, Hid.
    apply list_elem_of_fmap_2. by apply list_elem_of_In. }
  revert c. induction tenants as [|tenant rest IH]; intros c Hnodup Ht; [done|].
  rewrite fmap_cons in Hnodup.
  inversion Hnodup as [|? ? Hnotin Hnodup']; subst.
  cbn [appsFrom]. rewrite filter_app, length_app, Nat2Z.inj_add.
  destruct Ht as [->|Ht].
  - rewrite Hnone by done. unfold appsOfTenant. cbn [List.filter seedApp App.tenantId].
    by rewrite String.eqb_refl.
  - rewrite IH by done.
    assert (Tenant.id tenant ≠ Tenant.id t) as Hne.
    { intros Heq. apply Hnotin. rewrite Heq.
      apply list_elem_of_fmap_2. by apply list_elem_of_In. }
    unfold appsOfTenant. cbn [List.filter seedApp App.tenantId].
    apply String.eqb_neq in Hne. by rewrite Hne.
Qed.

(** X22. What the seed script writes hangs together.  Every seeded tenant
    opens its own tenant page; the page lists exactly as many apps as the
    tenant's [totalApps] badge says; and every app listed there opens its
    own app page. *)
Theorem seeded_pages (faker : Faker.t) (t : Tenant.t) :
  In t (seedTenants faker) →
  ∃ apps,
    TenantPage (seedFiles faker) (Tenant.id t) = Some (Rendered (t, apps)) ∧
    Z.of_nat (length apps) = Tenant.totalApps t ∧
    ∀ app, In app apps →
      App.tenantId app = Tenant.id t ∧
      AppPage (seedFiles faker) (App.id app) = Some (Rendered app).
Proof.
  intros Ht. eexists.
  unfold TenantPage, getTenant, getTenants, getAppsByTenant, seedFiles.
  cbn [Registry.tenants Registry.apps mbind option_bind].
  rewrite (find_unique_key Tenant.id _ t (seedTenants_NoDup faker) Ht).
  split; [reflexivity|]. rewrite seedApps_appsFrom. split.
  - rewrite appsFrom_filter_length by (done || apply seedTenants_NoDup).
    unfold seedTenants in Ht. apply in_map_iff in Ht as (i & <- & _). done.
  - intros app [Happ Heq]%filter_In. split; [by apply String.eqb_eq|].
    unfold AppPage, getApp. cbn [Registry.apps mbind option_bind].
    by rewrite (find_unique_key App.id _ app (appsFrom_NoDup faker _ 1) Happ).
Qed.

Lemma seeded_pages_witness :
  ∃ apps,
    TenantPage (seedFiles sampleFaker) (Tenant.id (seedTenant sampleFaker 2))
      = Some (Rendered (seedTenant sampleFaker 2, apps)) ∧
    Z.of_nat (length apps) = Tenant.totalApps (seedTenant sampleFaker 2) ∧
    ∀ app, In app apps →
      App.tenantId app = Tenant.id (seedTenant sampleFaker 2) ∧
      AppPage (seedFiles sampleFaker) (App.id app) = Some (Rendered app).
Proof.
  apply (seeded_pages sampleFaker (seedTenant sampleFaker 2)).
  right; left; reflexivity.
Defined.

Lemma seedData_length (faker : Faker.t) :
  Z.of_nat (length (seedData faker)) = NUM_RECORDS.
Proof.
  unfold seedData. rewrite length_fmap, length_seqZ.
  unfold NUM_RECORDS. lia.
Qed.

Lemma seedData_lookup (faker : Faker.t) (index : Z) :
  0 ≤ index < NUM_RECORDS →
  seedData faker !! Z.to_nat index = Some (seedRecord faker (index + 1)).
Proof.
  intros Hindex. unfold seedData.
  rewrite list_lookup_fmap, lookup_seqZ_lt by lia. cbn. do 2 f_equal. lia.
Qed.

Lemma seedDir_app_1 (faker : Faker.t) :
  seedDir faker "app_1" = Records (seedData faker).
Proof. reflexivity. Qed.

(** The app pushed at position [i] is the one made at counter value
    [appCounter + i], for the tenant at position [i / NUM_APPS_PER_TENANT]. *)
Lemma appsFrom_lookup (faker : Faker.t) (tenants : list Tenant.t) (c : Z)
    (i : nat) (app : App.t) :
  appsFrom faker c tenants !! i = Some app →
  ∃ tenant,
    tenants !! (i / 3)%nat = Some tenant ∧
    app = seedApp faker (c + Z.of_nat i) tenant.
Proof.
  revert c i. induction tenants as [|tenant rest IH]; intros c i; [done|].
  cbn [appsFrom appsOfTenant List.app].
  destruct i as [|[|[|i]]].
  - intros [= <-]. exists tenant. split; [done|]. f_equal. lia.
  - intros [= <-]. exists tenant. split; [done|]. f_equal.
  - intros [= <-]. exists tenant. split; [done|]. f_equal.
  - cbn [lookup list_lookup]. intros Hrest.
    destruct (IH _ _ Hrest) as (t & Ht & ->). exists t. split.
    + change (S (S (S i))) with (1 * 3 + i)%nat.
      by rewrite Nat.div_add_l by done.
    + f_equal. unfold NUM_APPS_PER_TENANT. lia.
Qed.

(** X23. The records the seed script writes for [app_1] come back from
    the store by position: the window [(start, size)] holds the records
    numbered [start + 1], [start + 2], ... up to [min(start + size,
    NUM_RECORDS)], each with the fields the script gave that number, and
    the store reports [NUM_RECORDS] as the total. *)
Theorem seeded_window (faker : Faker.t) (start size : Z) :
  0 ≤ start → 0 ≤ size →
  getAppDataRange (seedDir faker) "app_1" start size
    = Some (RangeQueryResult.mk
              (seedRecord faker
                 <$> seqZ (start + 1) (Z.min size (NUM_RECORDS - start)))
              NUM_RECORDS).
Proof.
  intros Hstart Hsize. unfold getAppDataRange. rewrite seedDir_app_1.
  cbv zeta. rewrite seedData_length. do 2 f_equal.
  apply list_eq. intros i.
  rewrite slice_lookup, seedData_length, list_lookup_fmap by lia.
  case_decide as Hin.
  - rewrite seedData_lookup, lookup_seqZ_lt by lia. cbn. do 2 f_equal. lia.
  - by rewrite lookup_seqZ_ge by lia.
Qed.

Lemma seeded_window_witness :
  getAppDataRange (seedDir sampleFaker) "app_1" 49990 53
    = Some (RangeQueryResult.mk
              (seedRecord sampleFaker
                 <$> seqZ (49990 + 1) (Z.min 53 (NUM_RECORDS - 49990)))
              NUM_RECORDS).
Proof. apply (seeded_window sampleFaker 49990 53); lia. Defined.

(** X24. For the seeded app [app_1] the number in the page header and the
    number in the table agree: the app page renders the app registered
    first, whose [recordCount] is [NUM_RECORDS], and the [totalCount] the
    table takes from its probe of the seeded store is the same number. *)
Theorem seeded_app_1_counts (faker : Faker.t) :
  ∃ app,
    AppPage (seedFiles faker) "app_1" = Some (Rendered app) ∧
    App.recordCount app = NUM_RECORDS ∧
    totalCount (step mounted (probe (seedDir faker) "app_1"))
      = App.recordCount app.
Proof.
  exists (seedApp faker 1 (seedTenant faker 1)). split; [|split].
  - unfold AppPage, getApp, seedFiles.
    cbn [Registry.apps mbind option_bind].
    rewrite seedApps_appsFrom. unfold seedTenants, NUM_TENANTS.
    rewrite seqZ_cons by lia. reflexivity.
  - reflexivity.
  - unfold probe. rewrite probe_total, seedDir_app_1, seedData_length.
    by destruct (step_MetaLoaded mounted NUM_RECORDS) as (-> & _).
Qed.

(** X25. Every other seeded app has a header count but no rows.  The app
    at position [i > 0] of [apps.json] carries the [recordCount] drawn from
    the faker, but the script writes no data file for it: the store
    answers every range with no records and total 0, and the table,
    once its probe has returned, shows "No data available" without having
    requested a page. *)
Theorem seeded_apps_without_data (faker : Faker.t) (i : nat) (app : App.t) :
  seedApps faker (seedTenants faker) !! i = Some app →
  (0 < i)%nat →
  let st := step mounted (probe (seedDir faker) (App.id app)) in
  App.recordCount app = Faker.numberInt faker (Z.of_nat i + 1) ∧
  (∀ start size,
     getAppDataRange (seedDir faker) (App.id app) start size
       = Some (RangeQueryResult.mk [] 0)) ∧
  view st = NoDataView ∧
  State.requests st = [].
Proof.
  intros Happ Hi. rewrite seedApps_appsFrom in Happ.
  destruct (appsFrom_lookup _ _ _ _ _ Happ) as (tenant & _ & ->).
  assert (seedDir faker (App.id (seedApp faker (1 + Z.of_nat i) tenant))
            = Absent) as Hdir.
  { unfold seedDir.
    destruct (String.eqb_spec
                (App.id (seedApp faker (1 + Z.of_nat i) tenant)) "app_1")
      as [Heq|]; [|done].
    apply (app_id_inj _ 1) in Heq. lia. }
  cbv zeta. split; [|split].
  - cbn [seedApp App.recordCount]. case_decide; [lia|]. f_equal. lia.
  - intros start size. unfold getAppDataRange. by rewrite Hdir.
  - unfold probe. rewrite probe_total, Hdir. by vm_compute.
Qed.

Lemma seeded_apps_without_data_witness :
  let app := seedApp sampleFaker 5 (seedTenant sampleFaker 2) in
  let st := step mounted (probe (seedDir sampleFaker) (App.id app)) in
  seedApps sampleFaker (seedTenants sampleFaker) !! 4%nat = Some app ∧
  App.recordCount app = Faker.numberInt sampleFaker (Z.of_nat 4 + 1) ∧
  (∀ start size,
     getAppDataRange (seedDir sampleFaker) (App.id app) start size
       = Some (RangeQueryResult.mk [] 0)) ∧
  view st = NoDataView ∧
  State.requests st = [].
Proof.
  cbv zeta.
  assert (seedApps sampleFaker (seedTenants sampleFaker) !! 4%nat
            = Some (seedApp sampleFaker 5 (seedTenant sampleFaker 2)))
    as Happ by (by vm_compute).
  split; [exact Happ|].
  apply (seeded_apps_without_data sampleFaker 4 _ Happ). lia.
Defined.

(** X26. With the seeded data on the screen, the ID column counts from
    one: when the store's answer for the current window of [app_1]
    arrives, the row at index [index] inside the window shows the record
    number [index + 1], and the rows outside it show the skeleton. *)
Theorem seeded_rows (faker : Faker.t) (st : State.t) :
  isFetching (getQuery (State.queries st) (currentKey st)) = true →
  let start := Range.start (State.debouncedRange st) in
  let size := Range.size (State.debouncedRange st) in
  0 ≤ start → 0 < size ≤ 1000 →
  let st' :=
    step st (Resolve (currentKey st)
                     (fetched (seedDir faker) "app_1" (currentKey st))) in
  ∀ index,
    renderRow st' index =
      if decide (start ≤ index < Z.min (start + size) NUM_RECORDS)
      then DataRow (seedRecord faker (index + 1))
      else Skeleton.
Proof.
  intros Hflight start size Hs Hz st' index. subst st'.
  unfold currentKey at 2, queryKey. fold start size.
  rewrite (fetched_valid _ _ _ _ _ (seedDir_app_1 faker)) by done.
  destruct (success_replaces_dataMap st
              (slice (seedData faker) start (start + size))
              (Z.of_nat (length (seedData faker))) Hflight) as (Hmap & _).
  unfold renderRow. rewrite Hmap. fold start.
  rewrite mapRecords_lookup, slice_length, seedData_length by lia.
  case_decide as Hin; case_decide as Hin'; try lia; [|done].
  rewrite slice_lookup, seedData_length by lia. case_decide; [|lia].
  replace (start + Z.of_nat (Z.to_nat (index - start))) with index by lia.
  by rewrite seedData_lookup by lia.
Qed.

Lemma seeded_rows_witness :
  let st := run mounted scrolledAway in
  let st' :=
    step st (Resolve (currentKey st)
                     (fetched (seedDir sampleFaker) "app_1" (currentKey st))) in
  renderRow st' 1980 = DataRow (seedRecord sampleFaker 1981) ∧
  renderRow st' 2032 = DataRow (seedRecord sampleFaker 2033) ∧
  renderRow st' 2033 = Skeleton.
Proof.
  cbv zeta.
  assert (isFetching
            (getQuery (State.queries (run mounted scrolledAway))
                      (currentKey (run mounted scrolledAway))) = true)
    as Hflight by (by vm_compute).
  pose proof (seeded_rows sampleFaker (run mounted scrolledAway) Hflight)
    as Hrows.
  cbv zeta in Hrows.
  change (Range.start (State.debouncedRange (run mounted scrolledAway)))
    with 1980 in Hrows.
  change (Range.size (State.debouncedRange (run mounted scrolledAway)))
    with 53 in Hrows.
  specialize (Hrows ltac:(lia) ltac:(lia)).
  split; [|split].
  - rewrite (Hrows 1980). reflexivity.
  - rewrite (Hrows 2032). reflexivity.
  - rewrite (Hrows 2033). reflexivity.
Defined.
